(** * The structured log / trace bridge of pkg/logger

    A shallow embedding of the otelzap-style logger found in
    [cmd/planning-pocker/services/userserver/service.go] (package [logger]):
    field-to-attribute conversion, the three log entry points, derived
    loggers, the global logger pair and the trace-id conversion.

    Conventions.
    - Go integers are [Z]; a conversion that wraps is written out.
    - Go strings are byte strings: [string] of the standard library.
    - A run-time panic (a failed single-value type assertion) is the
      [Panic] case of [Result].
    - The span, the zap logger, [fmt], [runtime] and [otelutil] belong to
      other packages.  The span is a record of the calls made on it; what
      the other libraries compute is taken from an [Externals] record. *)

From Stdlib Require Import ZArith Lia Bool.
From Stdlib Require Import Ascii String DecimalString.
From stdpp Require Import base list strings.

Local Open Scope Z_scope.

(** ** Results of code that may panic *)

Inductive Result (A : Type) : Type :=
| Ok (a : A)
| Panic (why : string).
Arguments Ok {A} a.
Arguments Panic {A} why.

#[global] Instance Result_ret : MRet Result := fun _ a => Ok a.

#[global] Instance Result_bind : MBind Result := fun _ _ k r =>
  match r with
  | Ok a => k a
  | Panic w => Panic w
  end.

(** ** strconv: the two functions [convertTraceID] relies on *)

Module strconv.

Definition maxUint64 : Z := 2 ^ 64 - 1.

Inductive NumError : Type :=
| ErrSyntax
| ErrRange.

(** [lower(c)] of strconv: [c | ('x' - 'X')]. *)
Definition lower (c : Z) : Z := Z.lor c 32.

(** The digit a byte stands for, before it is compared with the base. *)
Definition digitOf (c : ascii) : option Z :=
  let n := Z.of_N (N_of_ascii c) in
  if (48 <=? n) && (n <=? 57) then Some (n - 48)
  else if (97 <=? lower n) && (lower n <=? 122) then Some (lower n - 97 + 10)
  else None.

(** The loop of [ParseUint] over the bytes of [s], for an explicit base
    (no prefix, no underscores), with the running value [n]. *)
Fixpoint parseLoop (base cutoff maxVal : Z) (s : string) (n : Z)
  : Z * option NumError :=
  match s with
  | EmptyString => (n, None)
  | String c rest =>
      match digitOf c with
      | None => (0, Some ErrSyntax)
      | Some d =>
          if base <=? d then (0, Some ErrSyntax)
          else if cutoff <=? n then (maxVal, Some ErrRange)
          else
            let n' := (n * base) mod 2 ^ 64 in
            let n1 := (n' + d) mod 2 ^ 64 in
            if (n1 <? n') || (maxVal <? n1) then (maxVal, Some ErrRange)
            else parseLoop base cutoff maxVal rest n1
      end
  end.

(** [strconv.ParseUint(s, base, bitSize)] for [2 <= base <= 36] and
    [1 <= bitSize <= 64]. *)
Definition ParseUint (s : string) (base bitSize : Z) : Z * option NumError :=
  match s with
  | EmptyString => (0, Some ErrSyntax)
  | _ =>
      let cutoff := maxUint64 / base + 1 in
      let maxVal := 2 ^ bitSize - 1 in
      parseLoop base cutoff maxVal s 0
  end.

(** [strconv.FormatUint(v, 10)]. *)
Definition FormatUint10 (v : Z) : string :=
  NilEmpty.string_of_uint (N.to_uint (Z.to_N v)).

(** [strconv.FormatInt(v, 10)], as [%d] prints a signed integer. *)
Definition FormatInt10 (v : Z) : string :=
  if v <? 0 then String "-" (FormatUint10 (- v)) else FormatUint10 v.

End strconv.

(** [len(s)] and [s[n:]] on a Go string. *)
Definition len (s : string) : Z := Z.of_nat (String.length s).

Fixpoint sliceFrom (n : nat) (s : string) : string :=
  match n, s with
  | O, _ => s
  | S n', String _ rest => sliceFrom n' rest
  | S _, EmptyString => EmptyString
  end.

(** [convertTraceID]: the low 64 bits of a hex id, in decimal. *)
Definition convertTraceID (id : string) : string :=
  if len id <? 16 then ""%string
  else
    let id := if 16 <? len id then sliceFrom 16 id else id in
    match strconv.ParseUint id 16 64 with
    | (_, Some _) => ""%string
    | (intValue, None) => strconv.FormatUint10 intValue
    end.

(** ** zapcore: levels, field tags, fields *)

(** [zapcore.Level] is an [int8]. *)
Definition Level : Type := Z.

Definition DebugLevel : Level := -1.
Definition InfoLevel : Level := 0.
Definition WarnLevel : Level := 1.
Definition ErrorLevel : Level := 2.
Definition DPanicLevel : Level := 3.
Definition PanicLevel : Level := 4.
Definition FatalLevel : Level := 5.

(** [Level.CapitalString] of zapcore. *)
Definition CapitalString (l : Level) : string :=
  match l with
  | -1 => "DEBUG"
  | 0 => "INFO"
  | 1 => "WARN"
  | 2 => "ERROR"
  | 3 => "DPANIC"
  | 4 => "PANIC"
  | 5 => "FATAL"
  | _ => "LEVEL(" +:+ strconv.FormatInt10 l +:+ ")"
  end%string.

(** [zapcore.FieldType], a [uint8]: the declared constants, and
    [UndeclaredType] for a code past the last of them. *)
Inductive FieldType : Type :=
| UnknownType
| ArrayMarshalerType
| ObjectMarshalerType
| BinaryType
| BoolType
| ByteStringType
| Complex128Type
| Complex64Type
| DurationType
| Float64Type
| Float32Type
| Int64Type
| Int32Type
| Int16Type
| Int8Type
| StringType
| TimeType
| TimeFullType
| Uint64Type
| Uint32Type
| Uint16Type
| Uint8Type
| UintptrType
| ReflectType
| NamespaceType
| StringerType
| ErrorType
| SkipType
| InlineMarshalerType
| UndeclaredType (code : Z).

(** A non-nil [error]: its dynamic type name and its [Error()] text. *)
Record GoError : Type := mkGoError {
  errType : string;
  errText : string
}.

(** An [interface{}] value, by the dynamic type the bridge asks for.  A
    value whose type answers several assertions is entered under the one
    its field tag names.  [ArrayMarshaler_] carries the calls the
    marshaler makes on the encoder it is handed and the error it returns.
    A value of the asked type whose method does not return, a nil
    pointer behind the interface for one, is a [...Panic_] value: its
    [String()] or [Error()] panics, or its marshal method panics after
    the calls it made. *)
Inductive any : Type :=
| Nil
| Bool_ (b : bool)
| Int_ (v : Z)
| Float_ (bits : Z)
| String_ (s : string)
| Bytes_ (bs : string)
| Strings_ (ss : list string)
| Complex64_ (re im : Z)
| Complex128_ (re im : Z)
| Time_ (unixNano : Z)
| Stringer_ (text : string)
| Error_ (e : GoError)
| ArrayMarshaler_ (calls : list ArrayCall) (ret : option GoError)
| ObjectMarshaler_ (filled : any) (ret : option GoError)
| Other_ (descr : string)
| StringerPanic_ (why : string)
| ErrorPanic_ (typ : string) (why : string)
| ArrayMarshalerPanic_ (made : list ArrayCall) (why : string)
| ObjectMarshalerPanic_ (why : string)
with ArrayCall : Type :=
| AppendValue (v : any)
| AppendString (s : string)
| AppendArray (v : any)
| AppendObject (v : any).

Record Field : Type := mkField {
  Key : string;
  Type_ : FieldType;
  Integer : Z;
  String' : string;
  Interface : any
}.

(** Conversions to [int64] and [uint64] as Go performs them. *)
Definition int64 (v : Z) : Z := (v + 2 ^ 63) mod 2 ^ 64 - 2 ^ 63.
Definition uint64 (v : Z) : Z := v mod 2 ^ 64.

(** zap's constructors for integer fields: each stores [int64(val)]. *)
Module zap.

Definition intField (t : FieldType) (key : string) (val : Z) : Field :=
  {| Key := key; Type_ := t; Integer := int64 val;
     String' := ""; Interface := Nil |}.

Definition Int64 := intField Int64Type.
Definition Int32 := intField Int32Type.
Definition Int16 := intField Int16Type.
Definition Int8 := intField Int8Type.
Definition Uint64 := intField Uint64Type.
Definition Uint32 := intField Uint32Type.
Definition Uint16 := intField Uint16Type.
Definition Uint8 := intField Uint8Type.
Definition Uintptr := intField UintptrType.

Definition String (key val : string) : Field :=
  {| Key := key; Type_ := StringType; Integer := 0;
     String' := val; Interface := Nil |}.

Definition Stringer (key : string) (val : any) : Field :=
  {| Key := key; Type_ := StringerType; Integer := 0;
     String' := ""; Interface := val |}.

Definition Array (key : string) (val : any) : Field :=
  {| Key := key; Type_ := ArrayMarshalerType; Integer := 0;
     String' := ""; Interface := val |}.

Definition Object (key : string) (val : any) : Field :=
  {| Key := key; Type_ := ObjectMarshalerType; Integer := 0;
     String' := ""; Interface := val |}.

(** The options of zap that [WithOptions] can be handed, as far as the
    bridge tells them apart: [Fields] goes through the core's [With];
    [AddCallerSkip] and the options gathered under [CoreFree]
    ([AddCaller], [Development], [AddStacktrace], [ErrorOutput], ...)
    leave the core alone.  Options that wrap, replace or call the core
    ([WrapCore], [Hooks], [IncreaseLevel]) are not among them. *)
Inductive Option : Type :=
| Fields (fs : list Field)
| AddCallerSkip (skip : Z)
| CoreFree (name : string).

(** A zap logger is the collaborator's: a core and the options applied. *)
Record Logger : Type := mkLogger {
  core : string;
  applied : list Option
}.

Definition NewNop : Logger := {| core := "nop"; applied := [] |}.

Definition WithOptions (l : Logger) (opts : list Option) : Logger :=
  {| core := core l; applied := applied l ++ opts |}.

Record SugaredLogger : Type := mkSugared { base : Logger }.

Definition Sugar (l : Logger) : SugaredLogger := {| base := l |}.

(** What reaches the sink: level, message, and fields or loose arguments. *)
Inductive Entry : Type :=
| Structured (lvl : Level) (msg : string) (fields : list Field)
| Loose (lvl : Level) (msg : string) (keysAndValues : list any)
| Templated (lvl : Level) (template : string) (args : list any).

End zap.

(** ** attribute: typed key/value pairs *)

Inductive Value : Type :=
| BOOL (b : bool)
| INT64 (v : Z)
| FLOAT64 (bits : Z)
| STRING (s : string)
| STRINGSLICE (ss : list string)
| OTHER (descr : string).

Record KeyValue : Type := mkKV {
  AttrKey : string;
  AttrValue : Value
}.

Module attribute.
Definition Bool (k : string) (v : bool) : KeyValue := mkKV k (BOOL v).
Definition Int64 (k : string) (v : Z) : KeyValue := mkKV k (INT64 v).
Definition Int (k : string) (v : Z) : KeyValue := mkKV k (INT64 v).
Definition Float64 (k : string) (bits : Z) : KeyValue := mkKV k (FLOAT64 bits).
Definition String (k v : string) : KeyValue := mkKV k (STRING v).
Definition StringSlice (k : string) (v : list string) : KeyValue :=
  mkKV k (STRINGSLICE v).
End attribute.

Definition logSeverityKey : string := "log.severity".
Definition logMessageKey : string := "log.message".
Definition logTemplateKey : string := "log.template".

Module semconv.
Definition CodeFunctionKey : string := "code.function".
Definition CodeFilepathKey : string := "code.filepath".
Definition CodeLineNumberKey : string := "code.lineno".
Definition ExceptionTypeKey : string := "exception.type".
Definition ExceptionMessageKey : string := "exception.message".
Definition ExceptionStacktraceKey : string := "exception.stacktrace".
End semconv.

(** ** trace: the span as the record of what was called on it *)

Inductive Code : Type :=
| Unset
| Error
| OkCode.

Inductive SpanCall : Type :=
| AddEventCall (name : string) (attrs : list KeyValue)
| SetStatusCall (code : Code) (description : string).

(** Trace and span ids by their hexadecimal [String()] form. *)
Record SpanContext : Type := mkSpanContext {
  HasTraceID : bool;
  TraceID : string;
  SpanID : string
}.

Record Span : Type := mkSpan {
  IsRecording : bool;
  spanContext : SpanContext;
  calls : list SpanCall
}.

Definition AddEvent (s : Span) (name : string) (attrs : list KeyValue) : Span :=
  {| IsRecording := IsRecording s; spanContext := spanContext s;
     calls := calls s ++ [AddEventCall name attrs] |}.

Definition SetStatus (s : Span) (c : Code) (description : string) : Span :=
  {| IsRecording := IsRecording s; spanContext := spanContext s;
     calls := calls s ++ [SetStatusCall c description] |}.

(** A context either carries a span or not; without one,
    [trace.SpanFromContext] hands out the no-op span. *)
Definition Context : Type := option Span.

Definition noopSpan : Span :=
  {| IsRecording := false;
     spanContext := {| HasTraceID := false;
                       TraceID := "00000000000000000000000000000000";
                       SpanID := "0000000000000000" |};
     calls := [] |}.

Definition SpanFromContext (ctx : Context) : Span :=
  match ctx with
  | Some s => s
  | None => noopSpan
  end.

(** ** What the other packages compute *)

Record Frame : Type := mkFrame {
  PC : Z;
  Function : string;
  File : string;
  Line : Z
}.

Record Externals : Type := mkExternals {
  (** [fmt.Sprintf(format, args...)] *)
  Sprintf : string -> list any -> string;
  (** [fmt.Sprintf(format, f)] for a field [f] *)
  SprintfField : string -> Field -> string;
  (** [strconv.FormatComplex(c, fmt, prec, bitSize)] on the parts of [c] *)
  FormatComplex : Z -> Z -> ascii -> Z -> Z -> string;
  (** the [float64] a [float32] converts to, on bit patterns *)
  float64OfFloat32 : Z -> Z;
  (** [otelutil.Attribute(key, value)] *)
  otelutilAttribute : string -> any -> KeyValue;
  (** [runtime.Callers(skip, pc)]: the program counters from depth [skip] *)
  runtimeCallers : Z -> list Z;
  (** [runtime.CallersFrames(pc).Next()] *)
  callersFramesNext : list Z -> Frame;
  (** [runtime.Stack]: the whole trace of the calling goroutine *)
  runtimeStack : string;
  (** the capacity the runtime gives a slice of capacity [old] that has
      to grow to hold [need] elements *)
  growslice : nat -> nat -> nat
}.

(** ** Slices of fields over a store of backing arrays

    [extraFields] is a Go slice: a header (array, length, capacity) whose
    elements live in a backing array that copies of the header share. *)

Definition Heap : Type := list (list Field).

Record Slice : Type := mkSlice {
  array : option nat;
  slen : nat;
  scap : nat
}.

Definition nilSlice : Slice := {| array := None; slen := 0; scap := 0 |}.

Definition zeroField : Field :=
  {| Key := ""; Type_ := UnknownType; Integer := 0;
     String' := ""; Interface := Nil |}.

(** The elements a slice header shows. *)
Definition readSlice (h : Heap) (s : Slice) : list Field :=
  match array s with
  | Some a => take (slen s) (default [] (h !! a))
  | None => []
  end.

(** A header whose array is in the store. *)
Definition wfSlice (h : Heap) (s : Slice) : Prop :=
  match array s with
  | Some a => (a < length h)%nat
  | None => True
  end.

(** ** Logger

    A [*Logger] is read through: the model holds the [Logger] it points
    to, and every pointer is taken to be non-nil. *)

Record Logger : Type := mkLogger {
  zapLogger : zap.Logger;
  skipCaller : zap.Logger;
  withTraceID : bool;
  minLevel : Level;
  errorStatusLevel : Level;
  caller : bool;
  stackTrace : bool;
  extraFields : Slice;
  callerDepth : Z
}.

Record SugaredLogger : Type := mkSugaredLogger {
  zapSugared : zap.SugaredLogger;
  skipCallerSugared : zap.SugaredLogger;
  desugared : Logger
}.

Definition set_zap (z zs : zap.Logger) (l : Logger) : Logger :=
  mkLogger z zs (withTraceID l) (minLevel l) (errorStatusLevel l)
           (caller l) (stackTrace l) (extraFields l) (callerDepth l).
Definition set_withTraceID (on : bool) (l : Logger) : Logger :=
  mkLogger (zapLogger l) (skipCaller l) on (minLevel l) (errorStatusLevel l)
           (caller l) (stackTrace l) (extraFields l) (callerDepth l).
Definition set_minLevel (lvl : Level) (l : Logger) : Logger :=
  mkLogger (zapLogger l) (skipCaller l) (withTraceID l) lvl (errorStatusLevel l)
           (caller l) (stackTrace l) (extraFields l) (callerDepth l).
Definition set_errorStatusLevel (lvl : Level) (l : Logger) : Logger :=
  mkLogger (zapLogger l) (skipCaller l) (withTraceID l) (minLevel l) lvl
           (caller l) (stackTrace l) (extraFields l) (callerDepth l).
Definition set_caller (on : bool) (l : Logger) : Logger :=
  mkLogger (zapLogger l) (skipCaller l) (withTraceID l) (minLevel l)
           (errorStatusLevel l) on (stackTrace l) (extraFields l) (callerDepth l).
Definition set_stackTrace (on : bool) (l : Logger) : Logger :=
  mkLogger (zapLogger l) (skipCaller l) (withTraceID l) (minLevel l)
           (errorStatusLevel l) (caller l) on (extraFields l) (callerDepth l).
Definition set_extraFields (s : Slice) (l : Logger) : Logger :=
  mkLogger (zapLogger l) (skipCaller l) (withTraceID l) (minLevel l)
           (errorStatusLevel l) (caller l) (stackTrace l) s (callerDepth l).
Definition set_callerDepth (d : Z) (l : Logger) : Logger :=
  mkLogger (zapLogger l) (skipCaller l) (withTraceID l) (minLevel l)
           (errorStatusLevel l) (caller l) (stackTrace l) (extraFields l) d.

(** [Option]: a function that updates the logger it is handed, and the
    store through it. *)
Definition Option : Type := Heap -> Logger -> Heap * Logger.

Definition numAttr : Z := 5.

Section Bridge.

Variable E : Externals.

(** *** append on a slice of fields *)

Definition goAppend (h : Heap) (s : Slice) (xs : list Field) : Heap * Slice :=
  let need := (slen s + length xs)%nat in
  if (need <=? scap s)%nat then
    match array s with
    | Some a =>
        (alter (list_inserts (slen s) xs) a h,
         {| array := Some a; slen := need; scap := scap s |})
    | None => (h, s)
    end
  else
    let c := Nat.max need (growslice E (scap s) need) in
    (h ++ [readSlice h s ++ xs ++ replicate (c - need) zeroField],
     {| array := Some (length h); slen := need; scap := c |}).

(** *** bufferArrayEncoder *)

(** [MarshalLogArray] of [v] on an encoder holding [enc]: the strings
    the encoder ends with.  A value that is no array marshaler panics,
    and so does a marshaler whose method panics. *)
Fixpoint MarshalLogArray (v : any) (enc : list string) {struct v}
  : Result (list string) :=
  match v with
  | ArrayMarshaler_ cs _ =>
      (fix each (cs : list ArrayCall) (enc : list string) {struct cs}
         : Result (list string) :=
         match cs with
         | [] => Ok enc
         | c :: rest => enc' ← encoderCall c enc; each rest enc'
         end) cs enc
  | ArrayMarshalerPanic_ cs why =>
      match
        (fix each (cs : list ArrayCall) (enc : list string) {struct cs}
           : Result (list string) :=
           match cs with
           | [] => Ok enc
           | c :: rest => enc' ← encoderCall c enc; each rest enc'
           end) cs enc
      with
      | Ok _ => Panic why
      | Panic earlier => Panic earlier
      end
  | _ => Panic "not a zapcore.ArrayMarshaler"
  end
with encoderCall (c : ArrayCall) (enc : list string) {struct c}
  : Result (list string) :=
  match c with
  | AppendValue v => Ok (enc ++ [Sprintf E "%v" [v]])
  | AppendString s => Ok (enc ++ [s])
  | AppendArray v =>
      sub ← MarshalLogArray v [];
      Ok (enc ++ [Sprintf E "%v" [Strings_ sub]])
  | AppendObject v =>
      match v with
      | ObjectMarshaler_ filled _ => Ok (enc ++ [Sprintf E "%v" [filled]])
      | ObjectMarshalerPanic_ why => Panic why
      | _ => Panic "not a zapcore.ObjectMarshaler"
      end
  end.

Definition marshalError (v : any) : option GoError :=
  match v with
  | ArrayMarshaler_ _ ret => ret
  | _ => None
  end.

(** *** appendField *)

Definition appendField (attrs : list KeyValue) (f : Field)
  : Result (list KeyValue) :=
  match Type_ f with
  | BoolType =>
      Ok (attrs ++ [attribute.Bool (Key f) (Integer f =? 1)])
  | Int8Type | Int16Type | Int32Type | Int64Type
  | Uint32Type | Uint8Type | Uint16Type | Uint64Type
  | UintptrType =>
      Ok (attrs ++ [attribute.Int64 (Key f) (Integer f)])
  | Float32Type | Float64Type =>
      Ok (attrs ++ [attribute.Float64 (Key f) (uint64 (Integer f))])
  | Complex64Type =>
      match Interface f with
      | Complex64_ re im =>
          let s := FormatComplex E (float64OfFloat32 E re)
                     (float64OfFloat32 E im) "E" (-1) 64 in
          Ok (attrs ++ [attribute.String (Key f) s])
      | _ => Panic "interface conversion: not complex64"
      end
  | Complex128Type =>
      match Interface f with
      | Complex128_ re im =>
          let s := FormatComplex E re im "E" (-1) 128 in
          Ok (attrs ++ [attribute.String (Key f) s])
      | _ => Panic "interface conversion: not complex128"
      end
  | StringType =>
      Ok (attrs ++ [attribute.String (Key f) (String' f)])
  | BinaryType | ByteStringType =>
      match Interface f with
      | Bytes_ bs => Ok (attrs ++ [attribute.String (Key f) bs])
      | _ => Panic "interface conversion: not []uint8"
      end
  | StringerType =>
      match Interface f with
      | Stringer_ text => Ok (attrs ++ [attribute.String (Key f) text])
      | StringerPanic_ why => Panic why
      | _ => Panic "interface conversion: not fmt.Stringer"
      end
  | DurationType | TimeType =>
      Ok (attrs ++ [attribute.Int64 (Key f) (Integer f)])
  | TimeFullType =>
      match Interface f with
      | Time_ unixNano => Ok (attrs ++ [attribute.Int64 (Key f) unixNano])
      | _ => Panic "interface conversion: not time.Time"
      end
  | ErrorType =>
      match Interface f with
      | Error_ err =>
          let attrs :=
            attrs ++ [attribute.String semconv.ExceptionTypeKey (errType err)] in
          let attrs :=
            attrs ++ [attribute.String semconv.ExceptionMessageKey (errText err)] in
          Ok attrs
      | ErrorPanic_ _ why => Panic why
      | _ => Panic "interface conversion: not error"
      end
  | ReflectType =>
      Ok (attrs ++ [otelutilAttribute E (Key f) (Interface f)])
  | SkipType =>
      Ok attrs
  | ArrayMarshalerType =>
      stringsSlice ← MarshalLogArray (Interface f) [];
      let attr :=
        match marshalError (Interface f) with
        | Some err =>
            attribute.String (Key f +:+ "_error")
              (Sprintf E "otelzap: unable to marshal array: %v" [Error_ err])
        | None => attribute.StringSlice (Key f) stringsSlice
        end in
      Ok (attrs ++ [attr])
  | ObjectMarshalerType =>
      Ok (attrs ++ [attribute.String (Key f +:+ "_error")
                      "otelzap: zapcore.ObjectMarshalerType is not implemented"])
  | _ =>
      Ok (attrs ++ [attribute.String (Key f +:+ "_error")
                      (SprintfField E "otelzap: unknown field type: %v" f)])
  end.

Definition levelString (lvl : Level) : string :=
  if lvl =? DPanicLevel then "PANIC" else CapitalString lvl.

(** *** Logger.log *)

Definition runtimeCaller (skip : Z) : string * string * Z * bool :=
  let rpc := take 1 (runtimeCallers E (skip + 1)) in
  let n := Z.of_nat (length rpc) in
  if n <? 1 then (""%string, ""%string, 0, false)
  else
    let frame := callersFramesNext E rpc in
    (Function frame, File frame, Line frame, negb (PC frame =? 0)).

(** The attributes of the event: what [log] appends to [attrs] before
    it calls [AddEvent]. *)
Definition logAttrs (l : Logger) (lvl : Level) (msg : string)
    (attrs : list KeyValue) : list KeyValue :=
  let attrs := attrs ++ [attribute.String logSeverityKey (levelString lvl)] in
  let attrs := attrs ++ [attribute.String logMessageKey msg] in
  let attrs :=
    if caller l then
      match runtimeCaller (4 + callerDepth l) with
      | (fn, file, line, true) =>
          let attrs :=
            if negb (String.eqb fn "") then
              attrs ++ [attribute.String semconv.CodeFunctionKey fn]
            else attrs in
          if negb (String.eqb file "") then
            (attrs ++ [attribute.String semconv.CodeFilepathKey file])
              ++ [attribute.Int semconv.CodeLineNumberKey line]
          else attrs
      | (_, _, _, false) => attrs
      end
    else attrs in
  if stackTrace l then
    attrs ++ [attribute.String semconv.ExceptionStacktraceKey
                (substring 0 2048 (runtimeStack E))]
  else attrs.

Definition log (l : Logger) (span : Span) (lvl : Level) (msg : string)
    (attrs : list KeyValue) : Span :=
  let attrs := logAttrs l lvl msg attrs in
  let span := AddEvent span "log" attrs in
  if errorStatusLevel l <=? lvl then SetStatus span Error msg else span.

(** *** The strict entry point

    The fields of a call are a list of their own; only [extraFields] is
    read through the store.  The result is the field list for zap and
    the span after the calls made on it. *)

(** The loop of [logFields] over the fields. *)
Fixpoint appendFields (attrs : list KeyValue) (fields : list Field)
  : Result (list KeyValue) :=
  match fields with
  | [] => Ok attrs
  | f :: rest =>
      match Type_ f with
      | NamespaceType => appendFields attrs rest
      | _ => attrs' ← appendField attrs f; appendFields attrs' rest
      end
  end.

Definition traceIDFields (span : Span) : list Field :=
  let traceID := TraceID (spanContext span) in
  let spanID := SpanID (spanContext span) in
  [zap.String "traceId" traceID;
   zap.String "trace_id" (convertTraceID traceID);
   zap.String "spanId" spanID;
   zap.String "span_id" (convertTraceID spanID)].

Definition logFields (h : Heap) (l : Logger) (ctx : Context) (lvl : Level)
    (msg : string) (fields : list Field) : Result (list Field * Span) :=
  let fields :=
    if (0 <? slen (extraFields l))%nat
    then fields ++ readSlice h (extraFields l) else fields in
  if lvl <? minLevel l then Ok (fields, SpanFromContext ctx)
  else
    let span := SpanFromContext ctx in
    if negb (IsRecording span) then Ok (fields, span)
    else
      attrs ← appendFields [] fields;
      let span := log l span lvl msg attrs in
      let fields :=
        if withTraceID l then
          if HasTraceID (spanContext span)
          then fields ++ traceIDFields span else fields
        else fields in
      Ok (fields, span).

(** *** The sugared entry points *)

Definition logArgs (s : SugaredLogger) (ctx : Context) (lvl : Level)
    (template : string) (args : list any) : Span :=
  if lvl <? minLevel (desugared s) then SpanFromContext ctx
  else
    let span := SpanFromContext ctx in
    if negb (IsRecording span) then span
    else
      let attrs := [attribute.String logTemplateKey template] in
      log (desugared s) span lvl (Sprintf E template args) attrs.

(** [for i := 0; i < len(kvs)-1; i += 2], at most [fuel] rounds. *)
Fixpoint kvLoop (fuel : nat) (kvs : list any) (i : Z) (attrs : list KeyValue)
  : list KeyValue :=
  match fuel with
  | O => attrs
  | S fuel' =>
      if i <? Z.of_nat (length kvs) - 1 then
        let attrs :=
          match kvs !! Z.to_nat i with
          | Some (String_ key) =>
              attrs ++ [otelutilAttribute E key
                          (default Nil (kvs !! Z.to_nat (i + 1)))]
          | _ => attrs
          end in
        kvLoop fuel' kvs (i + 2) attrs
      else attrs
  end.

Definition traceIDKVs (span : Span) : list any :=
  let traceID := TraceID (spanContext span) in
  let spanID := SpanID (spanContext span) in
  [String_ "traceId"; String_ traceID;
   String_ "trace_id"; String_ (convertTraceID traceID);
   String_ "spanId"; String_ spanID;
   String_ "span_id"; String_ (convertTraceID spanID)].

Definition logKVs (s : SugaredLogger) (ctx : Context) (lvl : Level)
    (msg : string) (kvs : list any) : list any * Span :=
  if lvl <? minLevel (desugared s) then (kvs, SpanFromContext ctx)
  else
    let span := SpanFromContext ctx in
    if negb (IsRecording span) then (kvs, span)
    else
      let attrs := kvLoop (length kvs) kvs 0 [] in
      let span := log (desugared s) span lvl msg attrs in
      let kvs :=
        if withTraceID (desugared s) then
          if HasTraceID (spanContext span)
          then kvs ++ traceIDKVs span else kvs
        else kvs in
      (kvs, span).

(** *** The leveled methods: the entry point, then the zap call *)

Definition strictContext (lvl : Level) (h : Heap) (l : Logger) (ctx : Context)
    (msg : string) (fields : list Field) : Result (Span * zap.Entry) :=
  r ← logFields h l ctx lvl msg fields;
  Ok (r.2, zap.Structured lvl msg r.1).

Definition DebugContext := strictContext DebugLevel.
Definition InfoContext := strictContext InfoLevel.
Definition WarnContext := strictContext WarnLevel.
Definition ErrorContext := strictContext ErrorLevel.
Definition DPanicContext := strictContext DPanicLevel.
Definition PanicContext := strictContext PanicLevel.
Definition FatalContext := strictContext FatalLevel.

Definition templateContext (lvl : Level) (s : SugaredLogger) (ctx : Context)
    (template : string) (args : list any) : Span * zap.Entry :=
  let span := logArgs s ctx lvl template args in
  (span, zap.Templated lvl template args).

Definition DebugfContext := templateContext DebugLevel.
Definition InfofContext := templateContext InfoLevel.
Definition WarnfContext := templateContext WarnLevel.
Definition ErrorfContext := templateContext ErrorLevel.
Definition DPanicfContext := templateContext DPanicLevel.
Definition PanicfContext := templateContext PanicLevel.
Definition FatalfContext := templateContext FatalLevel.

Definition kvContext (lvl : Level) (s : SugaredLogger) (ctx : Context)
    (msg : string) (keysAndValues : list any) : Span * zap.Entry :=
  let r := logKVs s ctx lvl msg keysAndValues in
  (r.2, zap.Loose lvl msg r.1).

Definition DebugwContext := kvContext DebugLevel.
Definition InfowContext := kvContext InfoLevel.
Definition WarnwContext := kvContext WarnLevel.
Definition ErrorwContext := kvContext ErrorLevel.
Definition DPanicwContext := kvContext DPanicLevel.
Definition PanicwContext := kvContext PanicLevel.
Definition FatalwContext := kvContext FatalLevel.

(** *** Options and derived loggers *)

Definition WithMinLevel (lvl : Level) : Option :=
  fun h l => (h, set_minLevel lvl l).

Definition WithErrorStatusLevel (lvl : Level) : Option :=
  fun h l => (h, set_errorStatusLevel lvl l).

Definition WithCaller (on : bool) : Option :=
  fun h l => (h, set_caller on l).

Definition WithCallerDepth (depth : Z) : Option :=
  fun h l => (h, set_callerDepth depth l).

Definition WithStackTrace (on : bool) : Option :=
  fun h l => (h, set_stackTrace on l).

Definition WithExtraFields (fields : list Field) : Option :=
  fun h l =>
    let r := goAppend h (extraFields l) fields in
    (r.1, set_extraFields r.2 l).

Definition WithTraceIDField (on : bool) : Option :=
  fun h l => (h, set_withTraceID on l).

(** [for _, opt := range opts { opt(l) }] *)
Definition applyOptions (opts : list Option) (h : Heap) (l : Logger)
  : Heap * Logger :=
  fold_left (fun st opt => opt st.1 st.2) opts (h, l).

Definition NewOtel (h : Heap) (logger : zap.Logger) (opts : list Option)
  : Heap * Logger :=
  let l :=
    {| zapLogger := logger;
       skipCaller := zap.WithOptions logger [zap.AddCallerSkip 1];
       withTraceID := false;
       minLevel := WarnLevel;
       errorStatusLevel := ErrorLevel;
       caller := true;
       stackTrace := false;
       extraFields := nilSlice;
       callerDepth := 0 |} in
  applyOptions opts h l.

Definition Clone (h : Heap) (l : Logger) (opts : list Option) : Heap * Logger :=
  let clone := l in
  applyOptions opts h clone.

(** [zap.New(&fieldExtractorCore{...}, opts...)]: every [zap.Fields]
    option calls the core's [With], which appends to the extracted fields
    and returns nil for the next core; [coreLive] tells whether the
    logger under construction still has the extractor as its core. *)
Fixpoint extractFields (coreLive : bool) (opts : list zap.Option)
    (extraFields : list Field) : Result (list Field) :=
  match opts with
  | [] => Ok extraFields
  | zap.Fields fs :: rest =>
      if coreLive then extractFields false rest (extraFields ++ fs)
      else Panic "invalid memory address or nil pointer dereference"
  | _ :: rest => extractFields coreLive rest extraFields
  end.

Definition WithOptions (h : Heap) (l : Logger) (opts : list zap.Option)
  : Result (Heap * Logger) :=
  extra ← extractFields true opts [];
  let clone := l in
  let clone :=
    set_zap (zap.WithOptions (zapLogger l) opts)
            (zap.WithOptions (skipCaller l) opts) clone in
  let r := goAppend h (extraFields clone) extra in
  Ok (r.1, set_extraFields r.2 clone).

Definition Sugar (l : Logger) : SugaredLogger :=
  {| zapSugared := zap.Sugar (zapLogger l);
     skipCallerSugared := zap.Sugar (skipCaller l);
     desugared := l |}.

(** *** The global pair *)

Record Globals : Type := mkGlobals {
  _globalL : Logger;
  _globalS : SugaredLogger
}.

Definition initialGlobals : Globals :=
  let l := (NewOtel [] zap.NewNop []).2 in
  {| _globalL := l; _globalS := Sugar l |}.

Definition L (g : Globals) : Logger := _globalL g.
Definition S' (g : Globals) : SugaredLogger := _globalS g.

(** The body of [ReplaceGlobals] under the lock: the new pair, and the
    logger that was there. *)
Definition swapGlobals (logger : Logger) (g : Globals) : Globals * Logger :=
  let prev := _globalL g in
  ({| _globalL := logger; _globalS := Sugar logger |}, prev).

(** [ReplaceGlobals]: the returned closure runs [ReplaceGlobals(prev)]
    and drops what that call returns. *)
Definition ReplaceGlobals (logger : Logger) (g : Globals)
  : Globals * (Globals -> Globals) :=
  let r := swapGlobals logger g in
  (r.1, fun g' => (swapGlobals r.2 g').1).

End Bridge.

(** ** Reference definitions for the statements *)

(** The value of a string of hexadecimal digits, most significant first. *)
Definition isHexDigit (c : ascii) : bool :=
  let n := Z.of_N (N_of_ascii c) in
  ((48 <=? n) && (n <=? 57)) || ((97 <=? n) && (n <=? 102))
  || ((65 <=? n) && (n <=? 70)).

Definition hexDigitValue (c : ascii) : Z :=
  let n := Z.of_N (N_of_ascii c) in
  if n <=? 57 then n - 48 else if n <=? 70 then n - 55 else n - 87.

Fixpoint allHex (s : string) : bool :=
  match s with
  | EmptyString => true
  | String c rest => isHexDigit c && allHex rest
  end.

Fixpoint hexValueFrom (acc : Z) (s : string) : Z :=
  match s with
  | EmptyString => acc
  | String c rest => hexValueFrom (16 * acc + hexDigitValue c) rest
  end.

Definition hexValue (s : string) : Z := hexValueFrom 0 s.

(** The attributes of the pairs of a key/value list, pair by pair: a pair
    with a string key gives one attribute, any other pair and a last
    element without a partner give none. *)
Fixpoint pairAttrs (E : Externals) (kvs : list any) : list KeyValue :=
  match kvs with
  | String_ key :: value :: rest =>
      otelutilAttribute E key value :: pairAttrs E rest
  | _ :: _ :: rest => pairAttrs E rest
  | _ => []
  end.

(** The tags of the integer fields, and the values each can hold. *)
Definition isIntegerTag (t : FieldType) : bool :=
  match t with
  | Int8Type | Int16Type | Int32Type | Int64Type
  | Uint8Type | Uint16Type | Uint32Type | Uint64Type | UintptrType => true
  | _ => false
  end.

Definition tagRange (t : FieldType) : Z * Z :=
  match t with
  | Int8Type => (- 2 ^ 7, 2 ^ 7 - 1)
  | Int16Type => (- 2 ^ 15, 2 ^ 15 - 1)
  | Int32Type => (- 2 ^ 31, 2 ^ 31 - 1)
  | Int64Type => (- 2 ^ 63, 2 ^ 63 - 1)
  | Uint8Type => (0, 2 ^ 8 - 1)
  | Uint16Type => (0, 2 ^ 16 - 1)
  | Uint32Type => (0, 2 ^ 32 - 1)
  | Uint64Type | UintptrType => (0, 2 ^ 64 - 1)
  | _ => (0, 0)
  end.

(** The tags [appendField] has no case for. *)
Definition isUnrecognizedTag (t : FieldType) : bool :=
  match t with
  | UnknownType | NamespaceType | InlineMarshalerType | UndeclaredType _ => true
  | _ => false
  end.

(** An array marshaler that returns, and hands the encoder array and
    object marshalers that return, at every depth. *)
Fixpoint arrayOK (v : any) : bool :=
  match v with
  | ArrayMarshaler_ cs _ =>
      (fix all (cs : list ArrayCall) : bool :=
         match cs with
         | [] => true
         | c :: rest => callOK c && all rest
         end) cs
  | _ => false
  end
with callOK (c : ArrayCall) : bool :=
  match c with
  | AppendValue _ | AppendString _ => true
  | AppendArray v => arrayOK v
  | AppendObject (ObjectMarshaler_ _ _) => true
  | AppendObject _ => false
  end.

(** A field whose [Interface] holds a value of the type its tag
    promises, with a [String], [Error] or marshal method that returns. *)
Definition payloadOK (f : Field) : bool :=
  match Type_ f, Interface f with
  | Complex64Type, Complex64_ _ _ => true
  | Complex64Type, _ => false
  | Complex128Type, Complex128_ _ _ => true
  | Complex128Type, _ => false
  | (BinaryType | ByteStringType), Bytes_ _ => true
  | (BinaryType | ByteStringType), _ => false
  | StringerType, Stringer_ _ => true
  | StringerType, _ => false
  | TimeFullType, Time_ _ => true
  | TimeFullType, _ => false
  | ErrorType, Error_ _ => true
  | ErrorType, _ => false
  | ArrayMarshalerType, v => arrayOK v
  | _, _ => true
  end.

(** ** An environment to run the code on examples

    [fmt] reduced to the [%v] of strings, integers, booleans and errors;
    a caller frame that resolves; capacities doubling as the runtime does
    for slices under 256 elements. *)

Definition renderAny (v : any) : string :=
  match v with
  | Nil => "<nil>"
  | Bool_ true => "true"
  | Bool_ false => "false"
  | Int_ z => strconv.FormatInt10 z
  | String_ s => s
  | Bytes_ bs => bs
  | Strings_ ss => "[" +:+ String.concat " " ss +:+ "]"
  | Stringer_ text => text
  | Error_ e => errText e
  | Other_ d => d
  | _ => "?"
  end%string.

(** The format with its first [%v] replaced by [arg]. *)
Fixpoint fillVerb (format arg : string) : string :=
  match format with
  | String "%" (String "v" rest) => arg +:+ rest
  | String c rest => String c (fillVerb rest arg)
  | EmptyString => EmptyString
  end.

Definition exampleSprintf (format : string) (args : list any) : string :=
  fold_left (fun fmt a => fillVerb fmt (renderAny a)) args format.

Definition exampleAttribute (key : string) (v : any) : KeyValue :=
  match v with
  | Bool_ b => attribute.Bool key b
  | Int_ z => attribute.Int64 key z
  | Float_ bits => attribute.Float64 key bits
  | String_ s => attribute.String key s
  | Strings_ ss => attribute.StringSlice key ss
  | _ => attribute.String key (renderAny v)
  end.

Definition exampleE : Externals :=
  {| Sprintf := exampleSprintf;
     SprintfField := fun format f => fillVerb format ("{" +:+ Key f +:+ "}");
     FormatComplex := fun _ _ _ _ _ => "(0E+00+0E+00i)"%string;
     float64OfFloat32 := fun bits => bits;
     otelutilAttribute := exampleAttribute;
     runtimeCallers := fun _ => [4198400];
     callersFramesNext := fun _ =>
       {| PC := 4198400; Function := "main.handle";
          File := "/app/main.go"; Line := 42 |};
     runtimeStack := "goroutine 1 [running]:";
     growslice := fun old need =>
       if (old + old <? need)%nat then need else (old + old)%nat |}.

Definition recordingSpan : Span :=
  {| IsRecording := true;
     spanContext := {| HasTraceID := true;
                       TraceID := "0123456789abcdef0123456789abcdef";
                       SpanID := "00f067aa0ba902b7" |};
     calls := [] |}.

(** A logger that attaches from error up and escalates from warn up,
    and one that attaches from info up. *)
Definition gatedLogger : Logger :=
  (NewOtel [] zap.NewNop
     [WithMinLevel ErrorLevel; WithErrorStatusLevel WarnLevel]).2.

Definition infoLogger : Logger :=
  (NewOtel [] zap.NewNop [WithMinLevel InfoLevel]).2.

(** The same, with the caller lookup switched off. *)
Definition quietCallerInfoLogger : Logger :=
  (NewOtel [] zap.NewNop [WithMinLevel InfoLevel; WithCaller false]).2.

Definition f1 : Field := zap.String "service" "userserver".
Definition f2 : Field := zap.String "region" "eu".
Definition f3 : Field := zap.String "build" "42".
Definition fx : Field := zap.String "tenant" "x".
Definition fy : Field := zap.String "tenant" "y".


(** ** More of zap's field constructors *)

(** [zap.Bool]: the integer slot holds 1 for true and 0 for false. *)
Definition zapBool (key : string) (val : bool) : Field :=
  {| Key := key; Type_ := BoolType; Integer := if val then 1 else 0;
     String' := ""; Interface := Nil |}.

(** [zap.Float64] and [zap.Float32]: the integer slot holds
    [int64(math.Float64bits(val))], resp. [int64(math.Float32bits(val))],
    given here by the bit pattern. *)
Definition zapFloat64 (key : string) (bits : Z) : Field :=
  {| Key := key; Type_ := Float64Type; Integer := int64 bits;
     String' := ""; Interface := Nil |}.

Definition zapFloat32 (key : string) (bits : Z) : Field :=
  {| Key := key; Type_ := Float32Type; Integer := int64 bits;
     String' := ""; Interface := Nil |}.

(** [zap.Duration]: the integer slot holds the nanoseconds. *)
Definition zapDuration (key : string) (nanos : Z) : Field :=
  {| Key := key; Type_ := DurationType; Integer := int64 nanos;
     String' := ""; Interface := Nil |}.

(** [zap.NamedError] with a non-nil error. *)
Definition zapNamedError (key : string) (err : GoError) : Field :=
  {| Key := key; Type_ := ErrorType; Integer := 0;
     String' := ""; Interface := Error_ err |}.

(** ** Reference definitions for the further properties *)

(** The keys of the attributes a field turns into. *)
Definition attrKeys (E : Externals) (f : Field) : list string :=
  match Type_ f with
  | SkipType => []
  | ErrorType => [semconv.ExceptionTypeKey; semconv.ExceptionMessageKey]
  | ReflectType => [AttrKey (otelutilAttribute E (Key f) (Interface f))]
  | ObjectMarshalerType => [Key f +:+ "_error"]
  | ArrayMarshalerType =>
      match marshalError (Interface f) with
      | Some _ => [Key f +:+ "_error"]
      | None => [Key f]
      end
  | t => if isUnrecognizedTag t then [Key f +:+ "_error"] else [Key f]
  end.

(** The string one encoder call adds. *)
Definition callString (E : Externals) (c : ArrayCall) : Result string :=
  match c with
  | AppendValue v => Ok (Sprintf E "%v" [v])
  | AppendString s => Ok s
  | AppendArray v =>
      sub ← MarshalLogArray E v [];
      Ok (Sprintf E "%v" [Strings_ sub])
  | AppendObject (ObjectMarshaler_ filled _) => Ok (Sprintf E "%v" [filled])
  | AppendObject (ObjectMarshalerPanic_ why) => Panic why
  | AppendObject _ => Panic "not a zapcore.ObjectMarshaler"
  end.

Definition isNamespace (f : Field) : bool :=
  match Type_ f with
  | NamespaceType => true
  | _ => false
  end.

(** A slice header that fits its backing array. *)
Definition goodSlice (h : Heap) (s : Slice) : bool :=
  match array s with
  | Some a =>
      match h !! a with
      | Some arr => (scap s <=? length arr)%nat && (slen s <=? scap s)%nat
      | None => false
      end
  | None => (slen s =? 0)%nat && (scap s =? 0)%nat
  end.

(** The field lists of the [zap.Fields] options among [opts]. *)
Fixpoint fieldsOptions (opts : list zap.Option) : list (list Field) :=
  match opts with
  | [] => []
  | zap.Fields fs :: rest => fs :: fieldsOptions rest
  | _ :: rest => fieldsOptions rest
  end.

(** The span a call ends with, when it returns. *)
Definition resultSpan {A : Type} (r : Result (A * Span)) : Result Span :=
  match r with
  | Ok (_, span) => Ok span
  | Panic why => Panic why
  end.

(** What a call of the bridge may do to a span: nothing, one event named
    "log", or that event followed by an error status.  The span's
    recording flag and context stay. *)
Definition bridgeEffect (old new : Span) : Prop :=
  IsRecording new = IsRecording old
  /\ spanContext new = spanContext old
  /\ (calls new = calls old
      \/ exists attrs,
           calls new = calls old ++ [AddEventCall "log" attrs]
           \/ exists msg,
                calls new = calls old
                  ++ [AddEventCall "log" attrs; SetStatusCall Error msg]).

(** The options this package offers, by name, and the [Option] each
    stands for. *)
Inductive PackageOption : Type :=
| OptMinLevel (lvl : Level)
| OptErrorStatusLevel (lvl : Level)
| OptCaller (on : bool)
| OptCallerDepth (depth : Z)
| OptStackTrace (on : bool)
| OptExtraFields (fields : list Field)
| OptTraceIDField (on : bool).

Definition toOption (E : Externals) (o : PackageOption) : Option :=
  match o with
  | OptMinLevel lvl => WithMinLevel lvl
  | OptErrorStatusLevel lvl => WithErrorStatusLevel lvl
  | OptCaller on => WithCaller on
  | OptCallerDepth depth => WithCallerDepth depth
  | OptStackTrace on => WithStackTrace on
  | OptExtraFields fields => WithExtraFields E fields
  | OptTraceIDField on => WithTraceIDField on
  end.

Definition extraOf (o : PackageOption) : list Field :=
  match o with
  | OptExtraFields fields => fields
  | _ => []
  end.

(** A parent logger with three extra fields added one by one (length 3,
    capacity 4), and one with two (length 2, capacity 2), each with the
    store it lives in. *)
Definition roomyParent : Heap * Logger :=
  NewOtel [] zap.NewNop
    [WithExtraFields exampleE [f1]; WithExtraFields exampleE [f2];
     WithExtraFields exampleE [f3]].

Definition fullParent : Heap * Logger :=
  NewOtel [] zap.NewNop
    [WithExtraFields exampleE [f1]; WithExtraFields exampleE [f2]].

(** An environment in which the stack is too shallow for the caller
    lookup: [runtime.Callers] finds no frame. *)
Definition shallowE : Externals :=
  {| Sprintf := Sprintf exampleE;
     SprintfField := SprintfField exampleE;
     FormatComplex := FormatComplex exampleE;
     float64OfFloat32 := float64OfFloat32 exampleE;
     otelutilAttribute := otelutilAttribute exampleE;
     runtimeCallers := fun _ => [];
     callersFramesNext := callersFramesNext exampleE;
     runtimeStack := runtimeStack exampleE;
     growslice := growslice exampleE |}.

(** The levels an [int8] can hold. *)
Definition int8Levels : list Level :=
  map (fun n => Z.of_nat n - 128) (seq 0 256).

(** Two levels render to different severities, or are equal, or are
    DPanic and Panic. *)
Definition severityTells (a b : Level) : bool :=
  negb (String.eqb (levelString a) (levelString b))
  || (a =? b)
  || ((a =? DPanicLevel) && (b =? PanicLevel))
  || ((a =? PanicLevel) && (b =? DPanicLevel)).

(** ** Loggers bound to a context, and [With] *)

Record LoggerWithCtx : Type := mkLoggerWithCtx {
  boundCtx : Context;
  boundLogger : Logger
}.

Record SugaredLoggerWithCtx : Type := mkSugaredLoggerWithCtx {
  boundCtxS : Context;
  boundSugared : SugaredLogger
}.

Definition Logger_Ctx (l : Logger) (ctx : Context) : LoggerWithCtx :=
  {| boundCtx := ctx; boundLogger := l |}.

Definition LoggerWithCtx_Context (l : LoggerWithCtx) : Context := boundCtx l.

Definition LoggerWithCtx_Logger (l : LoggerWithCtx) : Logger := boundLogger l.

Definition LoggerWithCtx_ZapLogger (l : LoggerWithCtx) : zap.Logger :=
  zapLogger (boundLogger l).

Definition LoggerWithCtx_Sugar (l : LoggerWithCtx) : SugaredLoggerWithCtx :=
  {| boundCtxS := boundCtx l; boundSugared := Sugar (boundLogger l) |}.

Definition Desugar (s : SugaredLogger) : Logger := desugared s.

Definition SugaredLogger_Ctx (s : SugaredLogger) (ctx : Context)
  : SugaredLoggerWithCtx :=
  {| boundCtxS := ctx; boundSugared := s |}.

Definition SugaredLoggerWithCtx_Desugar (s : SugaredLoggerWithCtx)
  : LoggerWithCtx :=
  {| boundCtx := boundCtxS s; boundLogger := Desugar (boundSugared s) |}.

(** zap's [Logger.With]: the logger itself without fields, else a clone
    whose core has them. *)
Definition zapWith (l : zap.Logger) (fields : list Field) : zap.Logger :=
  match fields with
  | [] => l
  | _ => zap.WithOptions l [zap.Fields fields]
  end.

Section Bound.

Variable E : Externals.

(** zap's [sweetenFields]: the fields it makes of loose arguments. *)
Variable sweetenFields : list any -> list Field.

Definition zapSugaredWith (s : zap.SugaredLogger) (args : list any)
  : zap.SugaredLogger :=
  zap.mkSugared (zapWith (zap.base s) (sweetenFields args)).

(** [SugaredLogger.With] *)
Definition SugaredLogger_With (s : SugaredLogger) (args : list any)
  : SugaredLogger :=
  {| zapSugared := zapSugaredWith (zapSugared s) args;
     skipCallerSugared := skipCallerSugared s;
     desugared := desugared s |}.

Definition LoggerWithCtx_WithOptions (h : Heap) (l : LoggerWithCtx)
    (opts : list zap.Option) : Result (Heap * LoggerWithCtx) :=
  r ← WithOptions E h (boundLogger l) opts;
  Ok (r.1, {| boundCtx := boundCtx l; boundLogger := r.2 |}).

Definition LoggerWithCtx_Clone (h : Heap) (l : LoggerWithCtx)
    (opts : list Option) : Heap * LoggerWithCtx :=
  let r := Clone h (boundLogger l) opts in
  (r.1, {| boundCtx := boundCtx l; boundLogger := r.2 |}).

(** The leveled methods, with the zap logger each writes through:
    [Logger.<Level>Context] and [LoggerWithCtx.<Level>] through the
    logger's [skipCaller]; [SugaredLogger.<Level>wContext] and
    [<Level>fContext] through the embedded sugared logger;
    [SugaredLoggerWithCtx.<Level>w] and [<Level>f] through the sugared
    [skipCaller]. *)
Definition strictVia (lvl : Level) (h : Heap) (l : Logger) (ctx : Context)
    (msg : string) (fields : list Field)
  : Result (Span * (zap.Logger * zap.Entry)) :=
  r ← logFields E h l ctx lvl msg fields;
  Ok (r.2, (skipCaller l, zap.Structured lvl msg r.1)).

Definition boundStrict (lvl : Level) (h : Heap) (l : LoggerWithCtx)
    (msg : string) (fields : list Field)
  : Result (Span * (zap.Logger * zap.Entry)) :=
  r ← logFields E h (boundLogger l) (boundCtx l) lvl msg fields;
  Ok (r.2, (skipCaller (boundLogger l), zap.Structured lvl msg r.1)).

Definition kvVia (lvl : Level) (s : SugaredLogger) (ctx : Context)
    (msg : string) (keysAndValues : list any)
  : Span * (zap.SugaredLogger * zap.Entry) :=
  let r := logKVs E s ctx lvl msg keysAndValues in
  (r.2, (zapSugared s, zap.Loose lvl msg r.1)).

Definition boundKV (lvl : Level) (s : SugaredLoggerWithCtx)
    (msg : string) (keysAndValues : list any)
  : Span * (zap.SugaredLogger * zap.Entry) :=
  let r := logKVs E (boundSugared s) (boundCtxS s) lvl msg keysAndValues in
  (r.2, (skipCallerSugared (boundSugared s), zap.Loose lvl msg r.1)).

Definition templateVia (lvl : Level) (s : SugaredLogger) (ctx : Context)
    (template : string) (args : list any)
  : Span * (zap.SugaredLogger * zap.Entry) :=
  let span := logArgs E s ctx lvl template args in
  (span, (zapSugared s, zap.Templated lvl template args)).

Definition boundTemplate (lvl : Level) (s : SugaredLoggerWithCtx)
    (template : string) (args : list any)
  : Span * (zap.SugaredLogger * zap.Entry) :=
  let span := logArgs E (boundSugared s) (boundCtxS s) lvl template args in
  (span, (skipCallerSugared (boundSugared s), zap.Templated lvl template args)).

End Bound.

(** A logger with the caller lookup switched off. *)
Definition quietLogger : Logger :=
  (NewOtel [] zap.NewNop [WithCaller false]).2.

(** * Properties *)

(** ** convertTraceID *)

Section TraceID.

Lemma digitOf_hex (c : ascii) :
  isHexDigit c = true ->
  strconv.digitOf c = Some (hexDigitValue c) /\ 0 <= hexDigitValue c < 16.
Proof.
  destruct c as [[] [] [] [] [] [] [] []]; intros H;
    try discriminate H; vm_compute; repeat split; congruence.
Qed.

Lemma len_String (c : ascii) (s : string) : len (String c s) = len s + 1.
Proof. unfold len. simpl String.length. lia. Qed.

Lemma len_nonneg (s : string) : 0 <= len s.
Proof. unfold len. lia. Qed.

Lemma cutoff16 : strconv.maxUint64 / 16 + 1 = 2 ^ 60.
Proof. reflexivity. Qed.

(** On hexadecimal digits that fit, the loop of [ParseUint] computes the
    positional value and reports no error. *)
Lemma parseLoop_hex (s : string) : forall (n k : Z),
  0 <= k -> len s + k <= 16 -> 0 <= n < 16 ^ k -> allHex s = true ->
  strconv.parseLoop 16 (2 ^ 60) (2 ^ 64 - 1) s n = (hexValueFrom n s, None)
  /\ 0 <= hexValueFrom n s < 16 ^ (k + len s).
Proof.
  induction s as [|c s IH]; intros n k Hk Hlen Hn Hhex.
  - simpl. split; [reflexivity|]. unfold len; simpl. rewrite Z.add_0_r. exact Hn.
  - simpl in Hhex. apply andb_true_iff in Hhex as [Hc Hs].
    destruct (digitOf_hex c Hc) as [Hd Hrange].
    rewrite len_String in Hlen. pose proof (len_nonneg s) as Hs0.
    assert (Hpow : 16 ^ k <= 16 ^ 15) by (apply Z.pow_le_mono_r; lia).
    assert (H15 : 16 ^ 15 = 2 ^ 60) by reflexivity.
    assert (H64 : 2 ^ 64 = 16 * 2 ^ 60) by reflexivity.
    assert (Hk1 : 16 ^ (k + 1) = 16 * 16 ^ k)
      by (rewrite Z.pow_add_r by lia; lia).
    cbn [strconv.parseLoop hexValueFrom]. rewrite Hd.
    set (d := hexDigitValue c) in *.
    destruct (16 <=? d) eqn:E1; [apply Z.leb_le in E1; lia|].
    destruct (2 ^ 60 <=? n) eqn:E2; [apply Z.leb_le in E2; lia|].
    rewrite (Z.mod_small (n * 16)) by lia.
    rewrite (Z.mod_small (n * 16 + d)) by lia.
    destruct (n * 16 + d <? n * 16) eqn:E3; [apply Z.ltb_lt in E3; lia|].
    destruct (2 ^ 64 - 1 <? n * 16 + d) eqn:E4; [apply Z.ltb_lt in E4; lia|].
    cbn [orb].
    replace (16 * n + d) with (n * 16 + d) by lia.
    destruct (IH (n * 16 + d) (k + 1)) as [IH1 IH2]; try lia; [exact Hs|].
    split; [exact IH1|].
    rewrite len_String. replace (k + (len s + 1)) with (k + 1 + len s) by lia.
    exact IH2.
Qed.

Lemma sliceFrom_len (n : nat) : forall s : string,
  len (sliceFrom n s) = Z.max 0 (len s - Z.of_nat n).
Proof.
  induction n as [|n IH]; intros s.
  - simpl. pose proof (len_nonneg s). lia.
  - destruct s as [|c s]; simpl sliceFrom.
    + unfold len; simpl; lia.
    + rewrite IH, len_String. lia.
Qed.

Lemma sliceFrom_allHex (n : nat) : forall s : string,
  allHex s = true -> allHex (sliceFrom n s) = true.
Proof.
  induction n as [|n IH]; intros s H; [exact H|].
  destruct s as [|c s]; [reflexivity|].
  simpl in H. apply andb_true_iff in H as [_ H]. simpl. auto.
Qed.

Lemma ParseUint_hex16 (s : string) :
  len s = 16 -> allHex s = true ->
  strconv.ParseUint s 16 64 = (hexValue s, None) /\ 0 <= hexValue s < 2 ^ 64.
Proof.
  intros Hlen Hhex.
  destruct (parseLoop_hex s 0 0) as [H1 H2]; try lia; [exact Hhex|].
  rewrite Z.add_0_l, Hlen in H2.
  split; [|exact H2].
  unfold strconv.ParseUint. destruct s as [|c s]; [discriminate Hlen|].
  rewrite cutoff16. exact H1.
Qed.

End TraceID.

(** C4. [convertTraceID] maps every input shorter than 16 bytes to the
    empty string; on a 32-character hexadecimal id it returns the decimal
    rendering of the value of the characters from index 16 on, which is
    below 2^64; and it returns the empty string whenever [ParseUint]
    reports an error on what it is handed. *)
Theorem convertTraceID_spec :
  (forall id : string, len id < 16 -> convertTraceID id = ""%string)
  /\ (forall id : string, len id = 32 -> allHex id = true ->
        convertTraceID id = strconv.FormatUint10 (hexValue (sliceFrom 16 id))
        /\ 0 <= hexValue (sliceFrom 16 id) < 2 ^ 64)
  /\ (forall (id : string) (v : Z) (e : strconv.NumError),
        16 <= len id ->
        strconv.ParseUint (if 16 <? len id then sliceFrom 16 id else id) 16 64
          = (v, Some e) ->
        convertTraceID id = ""%string).
Proof.
  repeat split.
  - intros id H. unfold convertTraceID.
    destruct (len id <? 16) eqn:E1; [reflexivity|apply Z.ltb_ge in E1; lia].
  - unfold convertTraceID. rewrite H. cbn [Z.ltb Z.compare Pos.compare Pos.compare_cont].
    destruct (ParseUint_hex16 (sliceFrom 16 id)) as [HP _].
    + rewrite sliceFrom_len, H. reflexivity.
    + apply sliceFrom_allHex. assumption.
    + rewrite HP. reflexivity.
  - destruct (ParseUint_hex16 (sliceFrom 16 id)) as [_ HP].
    + rewrite sliceFrom_len, H. reflexivity.
    + apply sliceFrom_allHex. assumption.
    + lia.
  - destruct (ParseUint_hex16 (sliceFrom 16 id)) as [_ HP].
    + rewrite sliceFrom_len, H. reflexivity.
    + apply sliceFrom_allHex. assumption.
    + lia.
  - intros id v e Hlen HP. unfold convertTraceID.
    destruct (len id <? 16) eqn:E1; [reflexivity|].
    rewrite HP. reflexivity.
Qed.

Lemma convertTraceID_spec_witness :
  convertTraceID "0123456789abcdef0123456789abcdef" = "81985529216486895"%string
  /\ convertTraceID "0123456789abcde" = ""%string
  /\ convertTraceID "0123456789abcdef0123456789abcdeg" = ""%string.
Proof.
  destruct convertTraceID_spec as [Hshort [Hhex Herr]].
  split; [|split].
  - rewrite (proj1 (Hhex "0123456789abcdef0123456789abcdef"%string
                      eq_refl eq_refl)).
    vm_compute. reflexivity.
  - apply Hshort. vm_compute. reflexivity.
  - apply (Herr "0123456789abcdef0123456789abcdeg"%string 0 strconv.ErrSyntax).
    + vm_compute. discriminate.
    + vm_compute. reflexivity.
Defined.

(** ** Field conversion *)

Section Fields.

Variable E : Externals.

(** A marshaler that hands over marshalers only runs to its end. *)
Fixpoint MarshalLogArray_runs (v : any) {struct v} :
  forall enc, arrayOK v = true -> exists ss, MarshalLogArray E v enc = Ok ss
with encoderCall_runs (c : ArrayCall) {struct c} :
  forall enc, callOK c = true -> exists ss, encoderCall E c enc = Ok ss.
Proof.
  - destruct v; intros enc H; try discriminate H.
    cbn [MarshalLogArray]. cbn [arrayOK] in H.
    revert enc H. induction calls0 as [|c cs IH]; intros enc H.
    + eexists; reflexivity.
    + apply andb_true_iff in H as [Hc Hcs].
      destruct (encoderCall_runs c enc Hc) as [enc' Hc'].
      rewrite Hc'. cbn. apply IH, Hcs.
  - destruct c as [v|s|v|v]; intros enc H; cbn [encoderCall].
    + eexists; reflexivity.
    + eexists; reflexivity.
    + cbn [callOK] in H. destruct (MarshalLogArray_runs v [] H) as [ss Hss].
      rewrite Hss. eexists; reflexivity.
    + destruct v; try discriminate H. eexists; reflexivity.
Qed.

Lemma appendField_runs (attrs : list KeyValue) (f : Field) :
  payloadOK f = true -> exists attrs', appendField E attrs f = Ok attrs'.
Proof.
  unfold payloadOK, appendField. intros H.
  destruct (Type_ f); try (eexists; reflexivity);
    try (destruct (Interface f); try discriminate H; eexists; reflexivity).
  destruct (MarshalLogArray_runs (Interface f) [] H) as [ss Hss].
  rewrite Hss. eexists; reflexivity.
Qed.

(** A marshaler that panics, or hands over something that does, does
    not run to its end. *)
Fixpoint MarshalLogArray_stops (v : any) {struct v} :
  forall enc, arrayOK v = false -> exists why, MarshalLogArray E v enc = Panic why
with encoderCall_stops (c : ArrayCall) {struct c} :
  forall enc, callOK c = false -> exists why, encoderCall E c enc = Panic why.
Proof.
  - destruct v; intros enc H; try (eexists; reflexivity).
    + cbn [MarshalLogArray]. cbn [arrayOK] in H.
      revert enc H. induction calls0 as [|c cs IH]; intros enc H;
        [discriminate H|].
      destruct (callOK c) eqn:Hc.
      * destruct (encoderCall_runs c enc Hc) as [enc' Hc'].
        rewrite Hc'. cbn. apply IH. exact H.
      * destruct (encoderCall_stops c enc Hc) as [why Hc'].
        rewrite Hc'. cbn. eexists; reflexivity.
    + cbn [MarshalLogArray].
      match goal with
      | |- exists _, match ?r with _ => _ end = _ => destruct r
      end; eexists; reflexivity.
  - destruct c as [v|s|v|v]; intros enc H; cbn [encoderCall];
      try discriminate H.
    + cbn [callOK] in H. destruct (MarshalLogArray_stops v [] H) as [why Hw].
      rewrite Hw. eexists; reflexivity.
    + destruct v; try discriminate H; eexists; reflexivity.
Qed.

Lemma appendField_stops (attrs : list KeyValue) (f : Field) :
  payloadOK f = false -> exists why, appendField E attrs f = Panic why.
Proof.
  unfold payloadOK, appendField. intros H.
  destruct (Type_ f); try discriminate H;
    try (destruct (Interface f); try discriminate H; eexists; reflexivity).
  destruct (MarshalLogArray_stops (Interface f) [] H) as [why Hw].
  rewrite Hw. eexists; reflexivity.
Qed.

Lemma int64_fits (v : Z) : - 2 ^ 63 <= v <= 2 ^ 63 - 1 -> int64 v = v.
Proof. intros H. unfold int64. rewrite Z.mod_small; lia. Qed.

Lemma int64_wraps (v : Z) :
  2 ^ 63 - 1 < v <= 2 ^ 64 - 1 -> int64 v = v - 2 ^ 64.
Proof.
  intros H. unfold int64.
  rewrite <- (Z.mod_unique (v + 2 ^ 63) (2 ^ 64) 1 (v + 2 ^ 63 - 2 ^ 64)); lia.
Qed.

(** C5. [appendField] turns a field of any integer tag into an int64
    attribute holding the field's [Integer] slot as it is.  For a field
    built by zap's constructor from a value of the tag's type, the
    attribute holds that value, except for a value above 2^63-1, which
    only the unsigned 64-bit tags admit and which comes out as the
    negative [val - 2^64]. *)
Theorem appendField_integer (attrs : list KeyValue) (t : FieldType)
    (key : string) (val : Z) :
  isIntegerTag t = true ->
  (tagRange t).1 <= val <= (tagRange t).2 ->
  (forall f : Field, Type_ f = t ->
     appendField E attrs f
       = Ok (attrs ++ [attribute.Int64 (Key f) (Integer f)]))
  /\ appendField E attrs (zap.intField t key val)
       = Ok (attrs ++ [attribute.Int64 key
                         (if val <=? 2 ^ 63 - 1 then val else val - 2 ^ 64)])
  /\ (2 ^ 63 - 1 < val ->
        (t = Uint64Type \/ t = UintptrType) /\ val - 2 ^ 64 < 0).
Proof.
  intros Htag Hrange.
  assert (Hslot : forall f : Field, Type_ f = t ->
            appendField E attrs f
              = Ok (attrs ++ [attribute.Int64 (Key f) (Integer f)])).
  { intros f Hf. unfold appendField. rewrite Hf.
    destruct t; try discriminate Htag; reflexivity. }
  split; [exact Hslot|]. split.
  - rewrite (Hslot (zap.intField t key val) eq_refl). cbn [Key Integer zap.intField].
    destruct (val <=? 2 ^ 63 - 1) eqn:Hle.
    + apply Z.leb_le in Hle. rewrite int64_fits; [reflexivity|].
      destruct t; try discriminate Htag; cbn in Hrange; lia.
    + apply Z.leb_gt in Hle. rewrite int64_wraps; [reflexivity|].
      destruct t; try discriminate Htag; cbn in Hrange; lia.
  - intros Hbig.
    destruct t; try discriminate Htag; cbn in Hrange; try lia;
      (split; [auto|lia]).
Qed.


End Fields.

Lemma appendField_integer_witness :
  appendField exampleE [] (zap.Int8 "pct" 97)
    = Ok [attribute.Int64 "pct" 97]
  /\ appendField exampleE [] (zap.Uint64 "big" (2 ^ 64 - 1))
       = Ok [attribute.Int64 "big" (-1)].
Proof.
  split.
  - apply (appendField_integer exampleE [] Int8Type "pct" 97 eq_refl).
    vm_compute. split; discriminate.
  - apply (appendField_integer exampleE [] Uint64Type "big" (2 ^ 64 - 1) eq_refl).
    vm_compute. split; discriminate.
Defined.



(** ** The log entry points *)

Section Logging.

Variable E : Externals.

Lemma logAttrs_shape (l : Logger) (lvl : Level) (msg : string)
    (attrs : list KeyValue) :
  exists tail,
    logAttrs E l lvl msg attrs
      = attrs ++ attribute.String logSeverityKey (levelString lvl)
                 :: attribute.String logMessageKey msg :: tail.
Proof.
  unfold logAttrs.
  destruct (caller l); [destruct (runtimeCaller E _) as [[[fn file] line] []];
    [destruct (negb (String.eqb fn "")), (negb (String.eqb file ""))|]|];
    destruct (stackTrace l);
    rewrite <- ?app_assoc; cbn [app]; eexists; reflexivity.
Qed.

Lemma log_calls (l : Logger) (span : Span) (lvl : Level) (msg : string)
    (attrs : list KeyValue) :
  calls (log E l span lvl msg attrs)
    = calls span ++ AddEventCall "log" (logAttrs E l lvl msg attrs)
        :: (if errorStatusLevel l <=? lvl
            then [SetStatusCall Error msg] else []).
Proof.
  unfold log. destruct (errorStatusLevel l <=? lvl); cbn [calls SetStatus AddEvent].
  - rewrite <- app_assoc. reflexivity.
  - reflexivity.
Qed.

Lemma log_frame (l : Logger) (span : Span) (lvl : Level) (msg : string)
    (attrs : list KeyValue) :
  IsRecording (log E l span lvl msg attrs) = IsRecording span
  /\ spanContext (log E l span lvl msg attrs) = spanContext span.
Proof. unfold log. destruct (errorStatusLevel l <=? lvl); split; reflexivity. Qed.

Lemma appendFields_runs (fields : list Field) : forall attrs,
  forallb payloadOK fields = true ->
  exists attrs', appendFields E attrs fields = Ok attrs'.
Proof.
  induction fields as [|f rest IH]; intros attrs H; [eexists; reflexivity|].
  cbn [forallb] in H. apply andb_true_iff in H as [Hf Hrest].
  destruct (appendField_runs E attrs f Hf) as [attrs1 H1].
  cbn [appendFields].
  destruct (Type_ f); try (rewrite H1; cbn; apply IH, Hrest).
  apply IH, Hrest.
Qed.

Lemma readSlice_empty (h : Heap) (s : Slice) :
  (0 <? slen s)%nat = false -> readSlice h s = [].
Proof.
  intros H. apply Nat.ltb_ge in H. unfold readSlice.
  destruct (array s); [|reflexivity].
  replace (slen s) with 0%nat by lia. reflexivity.
Qed.

(** What [logFields] works on: the fields with the extra fields behind. *)
Lemma logFields_fields (h : Heap) (l : Logger) (fields : list Field) :
  (if (0 <? slen (extraFields l))%nat
   then fields ++ readSlice h (extraFields l) else fields)
  = fields ++ readSlice h (extraFields l).
Proof.
  destruct (0 <? slen (extraFields l))%nat eqn:H; [reflexivity|].
  rewrite (readSlice_empty h _ H), app_nil_r. reflexivity.
Qed.

(** The loop over the key/value list attaches the pairs as [pairAttrs]
    describes them. *)
Lemma kvLoop_pairAttrs (n : nat) : forall (kvs pre : list any)
    (attrs : list KeyValue) (fuel : nat),
  (length kvs <= n)%nat -> (length kvs <= fuel)%nat ->
  kvLoop E fuel (pre ++ kvs) (Z.of_nat (length pre)) attrs
    = attrs ++ pairAttrs E kvs.
Proof.
  induction n as [|n IH]; intros kvs pre attrs fuel Hn Hfuel.
  - destruct kvs; [|cbn in Hn; lia].
    rewrite app_nil_r. cbn [pairAttrs]. rewrite app_nil_r.
    destruct fuel; [reflexivity|]. cbn [kvLoop].
    destruct (Z.of_nat (length pre) <? Z.of_nat (length pre) - 1) eqn:Hc;
      [apply Z.ltb_lt in Hc; lia|reflexivity].
  - destruct kvs as [|k [|v rest]].
    + rewrite app_nil_r. cbn [pairAttrs]. rewrite app_nil_r.
      destruct fuel; [reflexivity|]. cbn [kvLoop].
      destruct (Z.of_nat (length pre) <? Z.of_nat (length pre) - 1) eqn:Hc;
        [apply Z.ltb_lt in Hc; lia|reflexivity].
    + assert (Hp : pairAttrs E [k] = []) by (destruct k; reflexivity).
      rewrite Hp, app_nil_r.
      destruct fuel; [reflexivity|]. cbn [kvLoop].
      rewrite length_app. cbn [length].
      destruct (Z.of_nat (length pre) <? Z.of_nat (length pre + 1) - 1) eqn:Hc;
        [apply Z.ltb_lt in Hc; lia|reflexivity].
    + cbn [length] in Hn, Hfuel.
      destruct fuel as [|fuel]; [lia|]. cbn [kvLoop].
      rewrite length_app. cbn [length].
      destruct (Z.of_nat (length pre) <? Z.of_nat (length pre + S (S (length rest))) - 1)
        eqn:Hc; [|apply Z.ltb_ge in Hc; lia].
      rewrite Nat2Z.id.
      replace (Z.to_nat (Z.of_nat (length pre) + 1)) with (length pre + 1)%nat by lia.
      rewrite (lookup_app_r pre) by lia.
      rewrite (lookup_app_r pre) by lia.
      replace (length pre - length pre)%nat with 0%nat by lia.
      replace (length pre + 1 - length pre)%nat with 1%nat by lia.
      cbn [lookup list_lookup default].
      replace (pre ++ k :: v :: rest) with ((pre ++ [k; v]) ++ rest)
        by (rewrite <- app_assoc; reflexivity).
      replace (Z.of_nat (length pre) + 2) with (Z.of_nat (length (pre ++ [k; v])))
        by (rewrite length_app; cbn [length]; lia).
      rewrite IH by lia.
      destruct k; cbn [pairAttrs]; try reflexivity.
      rewrite <- app_assoc. reflexivity.
Qed.

Lemma kvLoop_all (kvs : list any) :
  kvLoop E (length kvs) kvs 0 [] = pairAttrs E kvs.
Proof. apply (kvLoop_pairAttrs (length kvs) kvs [] []); lia. Qed.

(** C10. The severity attribute of the event is [levelString] of the
    level: "PANIC" for DPanic as for Panic, where the level's own capital
    name is "DPANIC"; for any other level, the level's capital name. *)
Theorem levelString_severity (l : Logger) (span : Span) (lvl : Level)
    (msg : string) (attrs : list KeyValue) :
  levelString DPanicLevel = "PANIC"%string
  /\ levelString PanicLevel = levelString DPanicLevel
  /\ CapitalString DPanicLevel = "DPANIC"%string
  /\ (lvl <> DPanicLevel -> levelString lvl = CapitalString lvl)
  /\ map levelString [DebugLevel; InfoLevel; WarnLevel; ErrorLevel; FatalLevel]
       = ["DEBUG"; "INFO"; "WARN"; "ERROR"; "FATAL"]%string
  /\ exists tail status,
       calls (log E l span lvl msg attrs)
         = calls span
           ++ AddEventCall "log"
                (attrs ++ attribute.String "log.severity" (levelString lvl)
                   :: tail)
              :: status.
Proof.
  repeat split.
  - intros H. unfold levelString, DPanicLevel in *.
    destruct (lvl =? 3) eqn:Hc; [apply Z.eqb_eq in Hc; contradiction|reflexivity].
  - destruct (logAttrs_shape l lvl msg attrs) as [tail Ht].
    rewrite log_calls, Ht. eexists _, _. reflexivity.
Qed.

(** C1, as the code has it.  On a recording span, a log call whose level
    is at or above both [minLevel] and [errorStatusLevel] adds the event
    and then sets the span's status to error with the log message as
    description: for the strict call when its fields convert, for the
    key/value call, and for the templated call, whose message is the
    formatted template. *)
Theorem error_status_on_recording_span (h : Heap) (l : Logger)
    (s : SugaredLogger) (ctx : Context) (lvl : Level) (msg : string)
    (fields : list Field) (kvs args : list any) (template : string) :
  IsRecording (SpanFromContext ctx) = true ->
  (minLevel l <= lvl -> errorStatusLevel l <= lvl ->
   forallb payloadOK (fields ++ readSlice h (extraFields l)) = true ->
   exists fields' span' attrs,
     logFields E h l ctx lvl msg fields = Ok (fields', span')
     /\ calls span' = calls (SpanFromContext ctx)
          ++ [AddEventCall "log" attrs; SetStatusCall Error msg])
  /\ (minLevel (desugared s) <= lvl -> errorStatusLevel (desugared s) <= lvl ->
      (exists attrs,
         calls (logKVs E s ctx lvl msg kvs).2
           = calls (SpanFromContext ctx)
             ++ [AddEventCall "log" attrs; SetStatusCall Error msg])
      /\ (exists attrs,
            calls (logArgs E s ctx lvl template args)
              = calls (SpanFromContext ctx)
                ++ [AddEventCall "log" attrs;
                    SetStatusCall Error (Sprintf E template args)])).
Proof.
  intros Hrec. split.
  - intros Hmin Herr Hok. unfold logFields.
    rewrite logFields_fields, Hrec.
    destruct (lvl <? minLevel l) eqn:Hc; [apply Z.ltb_lt in Hc; lia|].
    cbn [negb].
    destruct (appendFields_runs (fields ++ readSlice h (extraFields l)) [] Hok)
      as [attrs Ha].
    rewrite Ha. cbn.
    eexists _, _, _. split; [reflexivity|].
    rewrite log_calls.
    destruct (errorStatusLevel l <=? lvl) eqn:He; [reflexivity|].
    apply Z.leb_gt in He. lia.
  - intros Hmin Herr. unfold logKVs, logArgs. rewrite Hrec.
    destruct (lvl <? minLevel (desugared s)) eqn:Hc;
      [apply Z.ltb_lt in Hc; lia|].
    cbn [negb snd]. rewrite !log_calls.
    destruct (errorStatusLevel (desugared s) <=? lvl) eqn:He;
      [|apply Z.leb_gt in He; lia].
    split; eexists; reflexivity.
Qed.

(** C2. With a non-recording span in the context, the strict call, the
    key/value call and the templated call return with the span as it
    was: nothing is called on it, whatever the level. *)
Theorem nonrecording_span_untouched (h : Heap) (l : Logger)
    (s : SugaredLogger) (ctx : Context) (lvl : Level) (msg : string)
    (fields : list Field) (kvs args : list any) (template : string) :
  IsRecording (SpanFromContext ctx) = false ->
  logFields E h l ctx lvl msg fields
    = Ok (fields ++ readSlice h (extraFields l), SpanFromContext ctx)
  /\ logKVs E s ctx lvl msg kvs = (kvs, SpanFromContext ctx)
  /\ logArgs E s ctx lvl template args = SpanFromContext ctx.
Proof.
  intros Hrec. unfold logFields, logKVs, logArgs.
  rewrite logFields_fields, Hrec. cbn [negb].
  destruct (lvl <? minLevel l), (lvl <? minLevel (desugared s));
    repeat split; reflexivity.
Qed.

(** C3. A strict call below [minLevel] calls nothing on the span, so no
    attribute is built and no event attached, and returns the fields
    with the logger's extra fields appended. *)
Theorem below_minLevel_extra_fields_only (h : Heap) (l : Logger)
    (ctx : Context) (lvl : Level) (msg : string) (fields : list Field) :
  lvl < minLevel l ->
  logFields E h l ctx lvl msg fields
    = Ok (fields ++ readSlice h (extraFields l), SpanFromContext ctx)
  /\ strictContext E lvl h l ctx msg fields
     = Ok (SpanFromContext ctx,
           zap.Structured lvl msg (fields ++ readSlice h (extraFields l))).
Proof.
  intros Hlt.
  assert (H : logFields E h l ctx lvl msg fields
              = Ok (fields ++ readSlice h (extraFields l), SpanFromContext ctx)).
  { unfold logFields. rewrite logFields_fields.
    destruct (lvl <? minLevel l) eqn:Hc; [reflexivity|].
    apply Z.ltb_ge in Hc. lia. }
  split; [exact H|]. unfold strictContext. rewrite H. reflexivity.
Qed.


End Logging.

Lemma levelString_severity_witness :
  levelString WarnLevel = "WARN"%string.
Proof.
  destruct (levelString_severity exampleE infoLogger recordingSpan WarnLevel
              "disk low" []) as (_ & _ & _ & H & _).
  rewrite H; [reflexivity|]. vm_compute. discriminate.
Defined.

(** With [minLevel] above [errorStatusLevel], a warn call on a recording
    span is at the error-status level and leaves the span as it was. *)
Lemma warn_below_minLevel_sets_no_status :
  IsRecording recordingSpan = true
  /\ errorStatusLevel gatedLogger <= WarnLevel
  /\ WarnContext exampleE [] gatedLogger (Some recordingSpan) "disk low" []
     = Ok (recordingSpan, zap.Structured WarnLevel "disk low" [])
  /\ calls recordingSpan = [].
Proof.
  split; [reflexivity|]. split; [vm_compute; discriminate|].
  split; reflexivity.
Qed.

Lemma error_status_on_recording_span_witness :
  exists fields' span' attrs,
    logFields exampleE [] infoLogger (Some recordingSpan) ErrorLevel
      "db down" [zap.Int64 "attempt" 3] = Ok (fields', span')
    /\ calls span' = calls recordingSpan
         ++ [AddEventCall "log" attrs; SetStatusCall Error "db down"].
Proof.
  apply (proj1 (error_status_on_recording_span exampleE [] infoLogger
                  (Sugar infoLogger) (Some recordingSpan) ErrorLevel "db down"
                  [zap.Int64 "attempt" 3] [] [] "" eq_refl)).
  - vm_compute. discriminate.
  - vm_compute. discriminate.
  - reflexivity.
Defined.

Lemma nonrecording_span_untouched_witness :
  logFields exampleE [] infoLogger None FatalLevel "down" [zap.Int64 "n" 1]
    = Ok ([zap.Int64 "n" 1], noopSpan)
  /\ logKVs exampleE (Sugar infoLogger) None FatalLevel "down" [String_ "n"; Int_ 1]
     = ([String_ "n"; Int_ 1], noopSpan)
  /\ logArgs exampleE (Sugar infoLogger) None FatalLevel "down %v" [Int_ 1]
     = noopSpan.
Proof.
  exact (nonrecording_span_untouched exampleE [] infoLogger (Sugar infoLogger)
           None FatalLevel "down" [zap.Int64 "n" 1] [String_ "n"; Int_ 1]
           [Int_ 1] "down %v" eq_refl).
Defined.

Lemma below_minLevel_extra_fields_only_witness :
  let st := NewOtel [] zap.NewNop [WithExtraFields exampleE [f1]] in
  logFields exampleE st.1 st.2 (Some recordingSpan) InfoLevel "started"
    [zap.Int64 "port" 50052]
  = Ok ([zap.Int64 "port" 50052; f1], recordingSpan).
Proof.
  exact (proj1 (below_minLevel_extra_fields_only exampleE
           (NewOtel [] zap.NewNop [WithExtraFields exampleE [f1]]).1
           (NewOtel [] zap.NewNop [WithExtraFields exampleE [f1]]).2
           (Some recordingSpan) InfoLevel "started" [zap.Int64 "port" 50052]
           eq_refl)).
Defined.



(** ** The global pair *)

(** C6. [ReplaceGlobals(new)] installs [new]; running the closure it
    returned right after puts back the logger that was global before, so
    that [L()] reads the pre-replacement logger again. *)
Theorem ReplaceGlobals_restore (g : Globals) (new : Logger) :
  let r := ReplaceGlobals new g in
  L r.1 = new
  /\ L (r.2 r.1) = L g
  /\ S' (r.2 r.1) = Sugar (L g).
Proof. cbn. repeat split. Qed.

(** The closure puts back the logger it captured whatever is global by
    then: one level of undo. *)
Lemma restore_ignores_later_replacements (g : Globals) (a b : Logger) :
  let r := ReplaceGlobals a g in
  L (r.2 (ReplaceGlobals b r.1).1) = L g.
Proof. reflexivity. Qed.

Lemma initialGlobals_defaults :
  minLevel (L initialGlobals) = WarnLevel
  /\ errorStatusLevel (L initialGlobals) = ErrorLevel
  /\ S' initialGlobals = Sugar (L initialGlobals).
Proof. repeat split. Qed.

(** ** Derived loggers and the extra fields they share *)

Section Derived.

Variable E : Externals.

Lemma take_list_inserts (n : nat) (xs l : list Field) :
  take n (list_inserts n xs l) = take n l.
Proof.
  apply list_eq. intros j.
  destruct (decide (j < n)%nat) as [Hj|Hj].
  - rewrite !lookup_take_lt by lia. apply list_lookup_inserts_lt. lia.
  - rewrite !lookup_take_ge by lia. reflexivity.
Qed.

(** Appending through a copy of a slice header leaves what the header
    itself shows as it was. *)
Lemma goAppend_keeps_original (h : Heap) (s : Slice) (xs : list Field) :
  wfSlice h s ->
  readSlice (goAppend E h s xs).1 s = readSlice h s.
Proof.
  unfold wfSlice, goAppend, readSlice, Heap in *. intros Hwf.
  destruct (array s) as [a|] eqn:Ha.
  - destruct (slen s + length xs <=? scap s)%nat; cbn [fst].
    + rewrite list_lookup_alter.
      destruct (decide (a = a)) as [_|Hne]; [|contradiction].
      destruct (h !! a) as [arr|]; cbn; [apply take_list_inserts|reflexivity].
    + rewrite lookup_app_l by lia. reflexivity.
  - destruct (slen s + length xs <=? scap s)%nat; reflexivity.
Qed.

(** The parent of a derived logger keeps its extra fields. *)
Lemma parent_keeps_extra_fields (h : Heap) (l : Logger) (fs : list Field) :
  wfSlice h (extraFields l) ->
  readSlice (Clone h l [WithExtraFields E fs]).1 (extraFields l)
    = readSlice h (extraFields l)
  /\ forall r, WithOptions E h l [zap.Fields fs] = Ok r ->
       readSlice r.1 (extraFields l) = readSlice h (extraFields l).
Proof.
  intros Hwf. split.
  - apply goAppend_keeps_original, Hwf.
  - intros r Hr. cbn in Hr. injection Hr as <-. cbn [fst].
    apply (goAppend_keeps_original h (extraFields l) ([] ++ fs)), Hwf.
Qed.

End Derived.

(** C9, on the code.  A parent built with three single extra fields has
    a backing array with a free slot.  Two loggers derived from it, by
    [Clone] or by [WithOptions], each append their field into that slot:
    deriving the second one changes the extra fields the first one
    shows, from [fx] to [fy].  The parent's own list stays as it was. *)
Theorem siblings_share_extra_fields :
  let p := NewOtel [] zap.NewNop
             [WithExtraFields exampleE [f1]; WithExtraFields exampleE [f2];
              WithExtraFields exampleE [f3]] in
  let a := Clone p.1 p.2 [WithExtraFields exampleE [fx]] in
  let b := Clone a.1 p.2 [WithExtraFields exampleE [fy]] in
  readSlice p.1 (extraFields p.2) = [f1; f2; f3]
  /\ readSlice a.1 (extraFields a.2) = [f1; f2; f3; fx]
  /\ readSlice b.1 (extraFields b.2) = [f1; f2; f3; fy]
  /\ readSlice b.1 (extraFields a.2) = [f1; f2; f3; fy]
  /\ readSlice b.1 (extraFields p.2) = [f1; f2; f3]
  /\ exists a' b',
       WithOptions exampleE p.1 p.2 [zap.Fields [fx]] = Ok a'
       /\ WithOptions exampleE a'.1 p.2 [zap.Fields [fy]] = Ok b'
       /\ readSlice a'.1 (extraFields a'.2) = [f1; f2; f3; fx]
       /\ readSlice b'.1 (extraFields a'.2) = [f1; f2; f3; fy].
Proof.
  cbv zeta. repeat split; try reflexivity.
  eexists _, _. repeat split; reflexivity.
Qed.

(** * Further properties *)

(** ** convertTraceID on every hexadecimal id *)

Section TraceIDMore.

Lemma hexDigitValue_nonneg (c : ascii) :
  isHexDigit c = true -> 0 <= hexDigitValue c < 16.
Proof. intros H. apply (digitOf_hex c H). Qed.

Lemma hexValueFrom_ge (s : string) : forall acc,
  0 <= acc -> allHex s = true -> acc <= hexValueFrom acc s.
Proof.
  induction s as [|c s IH]; intros acc Hacc Hhex; [cbn; lia|].
  cbn in Hhex. apply andb_true_iff in Hhex as [Hc Hs].
  pose proof (hexDigitValue_nonneg c Hc). cbn [hexValueFrom].
  pose proof (IH (16 * acc + hexDigitValue c) ltac:(lia) Hs). lia.
Qed.

(** [ParseUint]'s loop on hexadecimal digits: the positional value when
    it fits 64 bits, the range error otherwise. *)
Lemma parseLoop_hex_range (s : string) : forall n,
  0 <= n < 2 ^ 64 -> allHex s = true ->
  strconv.parseLoop 16 (2 ^ 60) (2 ^ 64 - 1) s n
    = if hexValueFrom n s <? 2 ^ 64 then (hexValueFrom n s, None)
      else (2 ^ 64 - 1, Some strconv.ErrRange).
Proof.
  induction s as [|c s IH]; intros n Hn Hhex.
  - cbn. destruct (n <? 2 ^ 64) eqn:Hc; [reflexivity|].
    apply Z.ltb_ge in Hc. lia.
  - cbn in Hhex. apply andb_true_iff in Hhex as [Hc Hs].
    destruct (digitOf_hex c Hc) as [Hd Hrange].
    assert (H64 : 2 ^ 64 = 16 * 2 ^ 60) by reflexivity.
    cbn [strconv.parseLoop hexValueFrom]. rewrite Hd.
    set (d := hexDigitValue c) in *.
    destruct (16 <=? d) eqn:E1; [apply Z.leb_le in E1; lia|].
    destruct (2 ^ 60 <=? n) eqn:E2.
    + apply Z.leb_le in E2.
      pose proof (hexValueFrom_ge s (16 * n + d) ltac:(lia) Hs).
      destruct (hexValueFrom (16 * n + d) s <? 2 ^ 64) eqn:E5;
        [apply Z.ltb_lt in E5; lia|reflexivity].
    + apply Z.leb_gt in E2.
      rewrite (Z.mod_small (n * 16)) by lia.
      rewrite (Z.mod_small (n * 16 + d)) by lia.
      destruct (n * 16 + d <? n * 16) eqn:E3; [apply Z.ltb_lt in E3; lia|].
      destruct (2 ^ 64 - 1 <? n * 16 + d) eqn:E4; [apply Z.ltb_lt in E4; lia|].
      cbn [orb]. replace (16 * n + d) with (n * 16 + d) by lia.
      apply IH; [lia|exact Hs].
Qed.

Lemma digitOf_nonhex (c : ascii) :
  isHexDigit c = false ->
  match strconv.digitOf c with
  | Some d => 16 <= d
  | None => True
  end.
Proof.
  destruct c as [[] [] [] [] [] [] [] []]; intros H;
    try discriminate H; vm_compute; try exact I; discriminate.
Qed.

(** A byte that is no hexadecimal digit makes the loop end in an error,
    wherever it stands. *)
Lemma parseLoop_nonhex (s : string) : forall (cutoff maxVal n : Z),
  allHex s = false ->
  (strconv.parseLoop 16 cutoff maxVal s n).2 <> None.
Proof.
  induction s as [|c s IH]; intros cutoff maxVal n Hhex; [discriminate Hhex|].
  cbn [strconv.parseLoop].
  destruct (isHexDigit c) eqn:Hc.
  - cbn in Hhex. rewrite Hc in Hhex. cbn in Hhex.
    destruct (strconv.digitOf c) as [d|]; [|discriminate].
    destruct (16 <=? d); [discriminate|].
    destruct (cutoff <=? n); [discriminate|].
    destruct (_ || _); [discriminate|]. apply IH, Hhex.
  - pose proof (digitOf_nonhex c Hc) as Hd.
    destruct (strconv.digitOf c) as [d|]; [|discriminate].
    destruct (16 <=? d) eqn:E1; [discriminate|].
    apply Z.leb_gt in E1. lia.
Qed.

Lemma sliceFrom_nonempty (id : string) :
  16 < len id -> sliceFrom 16 id <> EmptyString.
Proof.
  intros H Heq. pose proof (sliceFrom_len 16 id) as Hl.
  rewrite Heq in Hl. unfold len at 1 in Hl. cbn in Hl. lia.
Qed.

Lemma ParseUint_nonempty (s : string) :
  s <> EmptyString ->
  strconv.ParseUint s 16 64 = strconv.parseLoop 16 (2 ^ 60) (2 ^ 64 - 1) s 0.
Proof.
  intros H. unfold strconv.ParseUint. destruct s; [contradiction|].
  rewrite cutoff16. reflexivity.
Qed.

(** What [convertTraceID] hands to [ParseUint]. *)
Lemma parsedPart_nonempty (id : string) :
  16 <= len id ->
  (if 16 <? len id then sliceFrom 16 id else id) <> EmptyString.
Proof.
  intros H. destruct (16 <? len id) eqn:Hc.
  - apply sliceFrom_nonempty. apply Z.ltb_lt in Hc. exact Hc.
  - intros ->. unfold len in H. cbn in H. lia.
Qed.

End TraceIDMore.

(** X1. For a hexadecimal id of at least 16 characters, [convertTraceID]
    parses the whole id when it has exactly 16 characters and the
    characters from index 16 on otherwise; the result is the decimal
    rendering of that value when it is below 2^64 and the empty string
    when it is not.  Up to 32 characters the value always fits. *)
Theorem convertTraceID_hex (id : string) :
  16 <= len id -> allHex id = true ->
  let parsed := if 16 <? len id then sliceFrom 16 id else id in
  convertTraceID id
    = (if hexValue parsed <? 2 ^ 64
       then strconv.FormatUint10 (hexValue parsed) else ""%string)
  /\ (len id <= 32 -> hexValue parsed < 2 ^ 64).
Proof.
  intros Hlen Hhex parsed.
  assert (Hp : allHex parsed = true).
  { subst parsed. destruct (16 <? len id); [apply sliceFrom_allHex|]; exact Hhex. }
  assert (Hne : parsed <> EmptyString) by (apply parsedPart_nonempty, Hlen).
  split.
  - unfold convertTraceID.
    destruct (len id <? 16) eqn:Hc; [apply Z.ltb_lt in Hc; lia|].
    fold parsed. rewrite (ParseUint_nonempty parsed Hne).
    rewrite (parseLoop_hex_range parsed 0 ltac:(lia) Hp).
    fold (hexValue parsed).
    destruct (hexValue parsed <? 2 ^ 64); reflexivity.
  - intros H32.
    destruct (parseLoop_hex parsed 0 (16 - len parsed)) as [_ H]; try exact Hp.
    + subst parsed. destruct (16 <? len id) eqn:Hc.
      * rewrite sliceFrom_len. lia.
      * apply Z.ltb_ge in Hc. lia.
    + lia.
    + split; [lia|]. apply Z.pow_pos_nonneg; [lia|].
      subst parsed. destruct (16 <? len id) eqn:Hc.
      * rewrite sliceFrom_len. lia.
      * apply Z.ltb_ge in Hc. lia.
    + replace (16 - len parsed + len parsed) with 16 in H by lia.
      change (16 ^ 16) with (2 ^ 64) in H. apply H.
Qed.

Lemma convertTraceID_hex_witness :
  convertTraceID "00f067aa0ba902b7" = "67667974448284343"%string
  /\ convertTraceID "00000000000000001ffffffffffffffff" = ""%string.
Proof.
  split.
  - rewrite (proj1 (convertTraceID_hex "00f067aa0ba902b7"
                      ltac:(vm_compute; discriminate) eq_refl)).
    vm_compute. reflexivity.
  - rewrite (proj1 (convertTraceID_hex "00000000000000001ffffffffffffffff"
                      ltac:(vm_compute; discriminate) eq_refl)).
    vm_compute. reflexivity.
Defined.

(** X2. When the part of the id that [convertTraceID] parses holds a
    byte that is no hexadecimal digit, the result is the empty string,
    wherever that byte stands and whatever the length. *)
Theorem convertTraceID_nonhex (id : string) :
  allHex (if 16 <? len id then sliceFrom 16 id else id) = false ->
  convertTraceID id = ""%string.
Proof.
  intros Hbad. unfold convertTraceID.
  destruct (len id <? 16) eqn:Hc; [reflexivity|]. apply Z.ltb_ge in Hc.
  set (parsed := if 16 <? len id then sliceFrom 16 id else id) in *.
  rewrite (ParseUint_nonempty parsed) by (apply parsedPart_nonempty, Hc).
  pose proof (parseLoop_nonhex parsed (2 ^ 60) (2 ^ 64 - 1) 0 Hbad) as H.
  destruct (strconv.parseLoop 16 (2 ^ 60) (2 ^ 64 - 1) parsed 0) as [v [e|]];
    [reflexivity|]. contradiction H. reflexivity.
Qed.

Lemma convertTraceID_nonhex_witness :
  convertTraceID "0123456789abcdef01234567-9abcdef" = ""%string.
Proof. apply convertTraceID_nonhex. vm_compute. reflexivity. Defined.

(** ** Field conversion, tag by tag *)

Section FieldsMore.

Variable E : Externals.

(** The attributes gathered so far do not enter the conversion. *)
Lemma appendField_from_empty (attrs : list KeyValue) (f : Field) :
  match appendField E [] f with
  | Ok new =>
      appendField E attrs f = Ok (attrs ++ new)
      /\ length new = match Type_ f with
                      | SkipType => 0%nat
                      | ErrorType => 2%nat
                      | _ => 1%nat
                      end
  | Panic why => appendField E attrs f = Panic why
  end.
Proof.
  unfold appendField.
  destruct (Type_ f); cbn; try (split; [rewrite ?app_nil_r|]; reflexivity);
    try (destruct (Interface f); cbn;
         try reflexivity; split; try reflexivity;
         rewrite <- ?app_assoc; reflexivity).
  destruct (MarshalLogArray E (Interface f) []); cbn; [|reflexivity].
  split; reflexivity.
Qed.

(** X3. What [appendField] does with a field does not depend on the
    attributes gathered so far: it panics on the same fields, and
    otherwise appends the very attributes it yields from an empty list,
    leaving the earlier ones in place.  There are two of them for an
    error field, none for a skip field and one for any other. *)
Theorem appendField_accumulator (attrs : list KeyValue) (f : Field) :
  match appendField E [] f with
  | Ok new =>
      appendField E attrs f = Ok (attrs ++ new)
      /\ length new = match Type_ f with
                      | SkipType => 0%nat
                      | ErrorType => 2%nat
                      | _ => 1%nat
                      end
  | Panic why => appendField E attrs f = Panic why
  end.
Proof.
  unfold appendField.
  destruct (Type_ f); cbn; try (split; [rewrite ?app_nil_r|]; reflexivity);
    try (destruct (Interface f); cbn;
         try reflexivity; split; try reflexivity;
         rewrite <- ?app_assoc; reflexivity).
  destruct (MarshalLogArray E (Interface f) []); cbn; [|reflexivity].
  split; reflexivity.
Qed.

(** X4. The keys under which a converted field shows on the span: its
    own key; its key with [_error] behind for an object marshaler, a
    failed array marshaler and an unrecognized tag; and for an error
    field the two fixed exception keys, whatever the field's key. *)
Theorem appendField_keys (f : Field) (new : list KeyValue) :
  appendField E [] f = Ok new ->
  map AttrKey new = attrKeys E f.
Proof.
  unfold appendField, attrKeys.
  destruct (Type_ f); cbn;
    try (intros [= <-]; reflexivity);
    try (destruct (Interface f); cbn; intros [= <-]; reflexivity).
  destruct (MarshalLogArray E (Interface f) []); cbn; [|discriminate].
  intros [= <-]. destruct (marshalError (Interface f)); reflexivity.
Qed.

Lemma uint64_int64 (bits : Z) : 0 <= bits < 2 ^ 64 -> uint64 (int64 bits) = bits.
Proof.
  intros H. unfold uint64, int64.
  destruct (Z_lt_le_dec bits (2 ^ 63)) as [Hlt|Hge].
  - rewrite (Z.mod_small (bits + 2 ^ 63)) by lia. rewrite Z.mod_small; lia.
  - rewrite <- (Z.mod_unique (bits + 2 ^ 63) (2 ^ 64) 1 (bits - 2 ^ 63)) by lia.
    rewrite <- (Z.mod_unique (bits - 2 ^ 63 - 2 ^ 63) (2 ^ 64) (-1) bits) by lia.
    reflexivity.
Qed.

(** X5. Fields built by zap's constructors for booleans, strings,
    64-bit floats and durations come out as attributes of the same key
    and value: the boolean itself, the string itself, the float's bit
    pattern unchanged through the signed integer slot, and the
    nanoseconds. *)
Theorem primitive_fields_round_trip (attrs : list KeyValue) (key : string)
    (b : bool) (s : string) (bits nanos : Z) :
  0 <= bits < 2 ^ 64 ->
  - 2 ^ 63 <= nanos <= 2 ^ 63 - 1 ->
  appendField E attrs (zapBool key b) = Ok (attrs ++ [attribute.Bool key b])
  /\ appendField E attrs (zap.String key s)
     = Ok (attrs ++ [attribute.String key s])
  /\ appendField E attrs (zapFloat64 key bits)
     = Ok (attrs ++ [attribute.Float64 key bits])
  /\ appendField E attrs (zapDuration key nanos)
     = Ok (attrs ++ [attribute.Int64 key nanos]).
Proof.
  intros Hbits Hnanos. repeat split.
  - destruct b; reflexivity.
  - unfold appendField. cbn [Type_ zapFloat64 Key Integer].
    rewrite uint64_int64 by exact Hbits. reflexivity.
  - unfold appendField. cbn [Type_ zapDuration Key Integer].
    rewrite int64_fits by exact Hnanos. reflexivity.
Qed.

(** X6. A 32-bit float field comes out as the float64 whose bit pattern
    is the 32-bit pattern itself: the pattern is not converted to the
    float64 of the same number. *)
Theorem float32_field_keeps_raw_bits (attrs : list KeyValue) (key : string)
    (bits : Z) :
  0 <= bits < 2 ^ 32 ->
  appendField E attrs (zapFloat32 key bits)
    = Ok (attrs ++ [attribute.Float64 key bits])
  /\ bits < 2 ^ 52.
Proof.
  intros H. split; [|lia].
  unfold appendField. cbn [Type_ zapFloat32 Key Integer].
  rewrite uint64_int64 by lia. reflexivity.
Qed.

(** The encoder gains one string per call, the call's own. *)
Lemma encoderCall_callString (c : ArrayCall) (enc : list string) :
  encoderCall E c enc
    = match callString E c with
      | Ok x => Ok (enc ++ [x])
      | Panic why => Panic why
      end.
Proof.
  destruct c as [v|s|v|v]; cbn; try reflexivity.
  - destruct (MarshalLogArray E v []); reflexivity.
  - destruct v; reflexivity.
Qed.

Lemma MarshalLogArray_strings (cs : list ArrayCall) (ret : option GoError) :
  forall enc ss,
  MarshalLogArray E (ArrayMarshaler_ cs ret) enc = Ok ss ->
  exists new, ss = enc ++ new
    /\ Forall2 (fun c x => callString E c = Ok x) cs new.
Proof.
  cbn [MarshalLogArray]. induction cs as [|c cs IH]; intros enc ss H.
  - injection H as <-. exists []. rewrite app_nil_r. split; constructor.
  - rewrite encoderCall_callString in H.
    destruct (callString E c) as [x|] eqn:Hc; [|discriminate H].
    cbn in H. destruct (IH _ _ H) as [new [-> Hall]].
    exists (x :: new). rewrite <- app_assoc. split; [reflexivity|].
    constructor; assumption.
Qed.

(** X7. An array field whose marshaler returns no error becomes one
    string-array attribute under the field's key, with one string per
    call the marshaler made on the encoder, in the order of the calls:
    the string itself for [AppendString]; the [%v] rendering of the
    value for the primitive element kinds; for [AppendArray] the [%v]
    rendering of the strings the nested marshaler encodes into a fresh
    encoder, whatever error the nested marshaler returns; for
    [AppendObject] the [%v] rendering of the fields the object filled
    in. *)
Theorem array_field_one_string_per_call (attrs attrs' : list KeyValue)
    (f : Field) (cs : list ArrayCall) :
  Type_ f = ArrayMarshalerType ->
  Interface f = ArrayMarshaler_ cs None ->
  appendField E attrs f = Ok attrs' ->
  exists ss,
    attrs' = attrs ++ [attribute.StringSlice (Key f) ss]
    /\ length ss = length cs
    /\ (forall i s, cs !! i = Some (AppendString s) -> ss !! i = Some s)
    /\ (forall i v, cs !! i = Some (AppendValue v) ->
          ss !! i = Some (Sprintf E "%v" [v]))
    /\ (forall i nested ret, cs !! i = Some (AppendArray (ArrayMarshaler_ nested ret)) ->
          exists sub,
            MarshalLogArray E (ArrayMarshaler_ nested None) [] = Ok sub
            /\ length sub = length nested
            /\ ss !! i = Some (Sprintf E "%v" [Strings_ sub]))
    /\ (forall i filled ret,
          cs !! i = Some (AppendObject (ObjectMarshaler_ filled ret)) ->
          ss !! i = Some (Sprintf E "%v" [filled])).
Proof.
  intros Ht Hi H. unfold appendField in H. rewrite Ht, Hi in H.
  destruct (MarshalLogArray E (ArrayMarshaler_ cs None) []) as [ss|] eqn:Hm;
    [|discriminate H].
  cbn in H. injection H as <-.
  destruct (MarshalLogArray_strings cs None [] ss Hm) as [new [-> Hall]].
  exists new. cbn [app]. split; [reflexivity|].
  split; [symmetry; exact (Forall2_length _ _ _ Hall)|].
  split; [|split; [|split]].
  - intros i x Hx.
    destruct (Forall2_lookup_l _ _ _ _ _ Hall Hx) as [y [Hy Hc]].
    cbn in Hc. injection Hc as <-. exact Hy.
  - intros i x Hx.
    destruct (Forall2_lookup_l _ _ _ _ _ Hall Hx) as [y [Hy Hc]].
    cbn in Hc. injection Hc as <-. exact Hy.
  - intros i nested ret Hx.
    destruct (Forall2_lookup_l _ _ _ _ _ Hall Hx) as [y [Hy Hc]].
    cbn [callString] in Hc.
    change (MarshalLogArray E (ArrayMarshaler_ nested ret) [])
      with (MarshalLogArray E (ArrayMarshaler_ nested None) []) in Hc.
    destruct (MarshalLogArray E (ArrayMarshaler_ nested None) []) as [sub|]
      eqn:Hsub; [|discriminate Hc].
    cbn in Hc. injection Hc as <-. exists sub. split; [reflexivity|].
    split; [|exact Hy].
    destruct (MarshalLogArray_strings nested None [] sub Hsub)
      as [new' [-> Hall']].
    symmetry. exact (Forall2_length _ _ _ Hall').
  - intros i filled ret Hx.
    destruct (Forall2_lookup_l _ _ _ _ _ Hall Hx) as [y [Hy Hc]].
    cbn in Hc. injection Hc as <-. exact Hy.
Qed.

End FieldsMore.

Lemma appendField_keys_witness :
  map AttrKey [attribute.String "exception.type" "*net.OpError";
               attribute.String "exception.message" "refused"]
  = attrKeys exampleE (zapNamedError "cause" (mkGoError "*net.OpError" "refused")).
Proof.
  exact (appendField_keys exampleE
           (zapNamedError "cause" (mkGoError "*net.OpError" "refused")) _
           eq_refl).
Defined.

Lemma primitive_fields_round_trip_witness :
  appendField exampleE [] (zapFloat64 "load" 13830554455654793216)
  = Ok [attribute.Float64 "load" 13830554455654793216].
Proof.
  apply (primitive_fields_round_trip exampleE [] "load" true ""
           13830554455654793216 0).
  - vm_compute. split; [discriminate|reflexivity].
  - vm_compute. split; discriminate.
Defined.

Lemma float32_field_keeps_raw_bits_witness :
  appendField exampleE [] (zapFloat32 "ratio" 1065353216)
  = Ok [attribute.Float64 "ratio" 1065353216].
Proof.
  apply (float32_field_keeps_raw_bits exampleE [] "ratio" 1065353216).
  vm_compute. split; [discriminate|reflexivity].
Defined.

Lemma array_field_one_string_per_call_witness :
  exists ss,
    [attribute.StringSlice "ids" ["a"; "7"; "[1 2]"]%string]
      = [] ++ [attribute.StringSlice "ids" ss]
    /\ length ss = 3%nat
    /\ ss !! 2%nat = Some "[1 2]"%string.
Proof.
  destruct (array_field_one_string_per_call exampleE []
              [attribute.StringSlice "ids" ["a"; "7"; "[1 2]"]%string]
              (zap.Array "ids"
                 (ArrayMarshaler_
                    [AppendString "a"; AppendValue (Int_ 7);
                     AppendArray
                       (ArrayMarshaler_ [AppendValue (Int_ 1); AppendValue (Int_ 2)]
                          (Some (mkGoError "*errors.errorString" "boom")))]
                    None))
              [AppendString "a"; AppendValue (Int_ 7);
               AppendArray
                 (ArrayMarshaler_ [AppendValue (Int_ 1); AppendValue (Int_ 2)]
                    (Some (mkGoError "*errors.errorString" "boom")))]
              eq_refl eq_refl eq_refl) as [ss [H1 [H2 [_ [_ [H5 _]]]]]].
  exists ss. split; [exact H1|]. split; [exact H2|].
  destruct (H5 2%nat _ _ eq_refl) as [sub [Hsub [_ Hss]]].
  injection Hsub as <-. exact Hss.
Defined.

(** ** More on the log entry points *)

Section LoggingMore.

Variable E : Externals.

Lemma appendFields_app (fs1 fs2 : list Field) : forall attrs,
  appendFields E attrs (fs1 ++ fs2)
    = match appendFields E attrs fs1 with
      | Ok attrs1 => appendFields E attrs1 fs2
      | Panic why => Panic why
      end.
Proof.
  induction fs1 as [|f fs1 IH]; intros attrs; [reflexivity|].
  cbn [app appendFields].
  destruct (Type_ f); try apply IH;
    (destruct (appendField E attrs f); cbn; [apply IH|reflexivity]).
Qed.

Lemma appendFields_filter (fields : list Field) : forall attrs,
  appendFields E attrs fields
    = appendFields E attrs (List.filter (fun f => negb (isNamespace f)) fields).
Proof.
  induction fields as [|f rest IH]; intros attrs; [reflexivity|].
  cbn [List.filter appendFields]. unfold isNamespace at 1.
  destruct (Type_ f) eqn:Ht; cbn [negb]; try apply IH;
    cbn [appendFields]; rewrite Ht;
    (destruct (appendField E attrs f); cbn; [apply IH|reflexivity]).
Qed.

(** X8. Namespace fields never reach the span: a strict call does to
    the span what it does without them.  They stay in the field list
    handed on to zap, which always starts with the fields of the call. *)
Theorem namespace_fields_not_on_span (h : Heap) (l : Logger) (ctx : Context)
    (lvl : Level) (msg : string) (fields : list Field) :
  resultSpan (logFields E h l ctx lvl msg fields)
    = resultSpan (logFields E h l ctx lvl msg
                    (List.filter (fun f => negb (isNamespace f)) fields))
  /\ forall fs span', logFields E h l ctx lvl msg fields = Ok (fs, span') ->
       exists tail, fs = fields ++ tail.
Proof.
  unfold logFields. rewrite !logFields_fields.
  destruct (lvl <? minLevel l); [split; [reflexivity|]|].
  { intros fs span' [= <- _]. eexists; reflexivity. }
  destruct (negb (IsRecording (SpanFromContext ctx))); [split; [reflexivity|]|].
  { intros fs span' [= <- _]. eexists; reflexivity. }
  rewrite !appendFields_app, <- appendFields_filter.
  destruct (appendFields E [] fields) as [attrs1|]; cbn; [|split; [reflexivity|discriminate]].
  destruct (appendFields E attrs1 (readSlice h (extraFields l))) as [attrs2|];
    cbn; [|split; [reflexivity|discriminate]].
  split; [reflexivity|].
  intros fs span' [= <- _].
  destruct (withTraceID l); [destruct (HasTraceID _)|];
    rewrite <- ?app_assoc; eexists; reflexivity.
Qed.

(** How many attributes [log] adds, and which. *)
Lemma logAttrs_added (l : Logger) (lvl : Level) (msg : string)
    (attrs : list KeyValue) :
  (length attrs + 2 <= length (logAttrs E l lvl msg attrs) <= length attrs + 6)%nat
  /\ (caller l = false -> stackTrace l = false ->
      logAttrs E l lvl msg attrs
        = attrs ++ [attribute.String "log.severity" (levelString lvl);
                    attribute.String "log.message" msg])
  /\ (In "code.lineno"%string (map AttrKey (logAttrs E l lvl msg []))
      <-> In "code.filepath"%string (map AttrKey (logAttrs E l lvl msg []))).
Proof.
  unfold logAttrs.
  destruct (caller l); [destruct (runtimeCaller E _) as [[[fn file] line] []];
    [destruct (negb (String.eqb fn "")), (negb (String.eqb file ""))|]|];
    destruct (stackTrace l);
    (split; [rewrite ?length_app; cbn [length]; lia|]);
    (split; [intros; try discriminate; rewrite <- ?app_assoc; reflexivity|]);
    cbn; split; intros H;
    repeat (destruct H as [H|H]; try discriminate H); auto 10.
Qed.

(** X9. [Logger.log] adds between two and six attributes to the ones
    it is handed: severity and message always, up to three for the
    caller and one for the stack trace.  With both switched off it adds
    exactly the two, and the line number is attached exactly when the
    file path is. *)
Theorem logAttrs_count (l : Logger) (lvl : Level) (msg : string)
    (attrs : list KeyValue) :
  (length attrs + 2 <= length (logAttrs E l lvl msg attrs) <= length attrs + 6)%nat
  /\ (caller l = false -> stackTrace l = false ->
      logAttrs E l lvl msg attrs
        = attrs ++ [attribute.String "log.severity" (levelString lvl);
                    attribute.String "log.message" msg])
  /\ (In "code.lineno"%string (map AttrKey (logAttrs E l lvl msg []))
      <-> In "code.filepath"%string (map AttrKey (logAttrs E l lvl msg []))).
Proof.
  unfold logAttrs.
  destruct (caller l); [destruct (runtimeCaller E _) as [[[fn file] line] []];
    [destruct (negb (String.eqb fn "")), (negb (String.eqb file ""))|]|];
    destruct (stackTrace l);
    (split; [rewrite ?length_app; cbn [length]; lia|]);
    (split; [intros; try discriminate; rewrite <- ?app_assoc; reflexivity|]);
    cbn; split; intros H;
    repeat (destruct H as [H|H]; try discriminate H); auto 10.
Qed.

Lemma log_effect (l : Logger) (span : Span) (lvl : Level) (msg : string)
    (attrs : list KeyValue) :
  bridgeEffect span (log E l span lvl msg attrs).
Proof.
  destruct (log_frame E l span lvl msg attrs) as [H1 H2].
  split; [exact H1|]. split; [exact H2|].
  right. exists (logAttrs E l lvl msg attrs). rewrite log_calls.
  destruct (errorStatusLevel l <=? lvl); [right; exists msg|left]; reflexivity.
Qed.

Lemma bridgeEffect_refl (span : Span) : bridgeEffect span span.
Proof. split; [|split]; auto. Qed.

(** X10. Whatever the logger, the level and the arguments, a call of
    the bridge only ever adds to the span's calls, and adds nothing, one
    event named "log", or that event followed by one error status: it
    never sets another status, never adds two events, and never touches
    the span's recording flag or context. *)
Theorem bridge_span_effect (h : Heap) (l : Logger) (s : SugaredLogger)
    (ctx : Context) (lvl : Level) (msg template : string)
    (fields : list Field) (kvs args : list any) :
  match logFields E h l ctx lvl msg fields with
  | Ok (_, span') => bridgeEffect (SpanFromContext ctx) span'
  | Panic _ => True
  end
  /\ bridgeEffect (SpanFromContext ctx) (logKVs E s ctx lvl msg kvs).2
  /\ bridgeEffect (SpanFromContext ctx) (logArgs E s ctx lvl template args).
Proof.
  unfold logFields, logKVs, logArgs. split; [|split].
  - destruct (lvl <? minLevel l); [apply bridgeEffect_refl|].
    destruct (negb (IsRecording (SpanFromContext ctx)));
      [apply bridgeEffect_refl|].
    destruct (appendFields E [] _); cbn; [apply log_effect|exact I].
  - destruct (lvl <? minLevel (desugared s)); [apply bridgeEffect_refl|].
    destruct (negb (IsRecording (SpanFromContext ctx)));
      [apply bridgeEffect_refl|apply log_effect].
  - destruct (lvl <? minLevel (desugared s)); [apply bridgeEffect_refl|].
    destruct (negb (IsRecording (SpanFromContext ctx)));
      [apply bridgeEffect_refl|apply log_effect].
Qed.

(** X11. On a recording span, a call at or above [minLevel] and below
    [errorStatusLevel] adds the event and nothing else: the status is
    left alone.  This holds for the strict call when its fields convert,
    for the key/value call and for the templated call. *)
Theorem event_without_status (h : Heap) (l : Logger) (s : SugaredLogger)
    (ctx : Context) (lvl : Level) (msg template : string)
    (fields : list Field) (kvs args : list any) :
  IsRecording (SpanFromContext ctx) = true ->
  (minLevel l <= lvl < errorStatusLevel l ->
   forallb payloadOK (fields ++ readSlice h (extraFields l)) = true ->
   exists fields' span' attrs,
     logFields E h l ctx lvl msg fields = Ok (fields', span')
     /\ calls span' = calls (SpanFromContext ctx) ++ [AddEventCall "log" attrs])
  /\ (minLevel (desugared s) <= lvl < errorStatusLevel (desugared s) ->
      (exists attrs,
         calls (logKVs E s ctx lvl msg kvs).2
           = calls (SpanFromContext ctx) ++ [AddEventCall "log" attrs])
      /\ (exists attrs,
            calls (logArgs E s ctx lvl template args)
              = calls (SpanFromContext ctx) ++ [AddEventCall "log" attrs])).
Proof.
  intros Hrec. split.
  - intros [Hmin Herr] Hok. unfold logFields.
    rewrite logFields_fields, Hrec.
    destruct (lvl <? minLevel l) eqn:Hc; [apply Z.ltb_lt in Hc; lia|].
    cbn [negb].
    destruct (appendFields_runs E (fields ++ readSlice h (extraFields l)) [] Hok)
      as [attrs Ha].
    rewrite Ha. cbn.
    eexists _, _, _. split; [reflexivity|].
    rewrite log_calls.
    destruct (errorStatusLevel l <=? lvl) eqn:He; [|reflexivity].
    apply Z.leb_le in He. lia.
  - intros [Hmin Herr]. unfold logKVs, logArgs. rewrite Hrec.
    destruct (lvl <? minLevel (desugared s)) eqn:Hc;
      [apply Z.ltb_lt in Hc; lia|].
    cbn [negb snd]. rewrite !log_calls.
    destruct (errorStatusLevel (desugared s) <=? lvl) eqn:He;
      [apply Z.leb_le in He; lia|].
    split; eexists; reflexivity.
Qed.

(** X12. The trace-id switch changes what zap is handed and nothing on
    the span.  With it on, a strict call that reaches the span returns
    the fields, the extra fields and then, when the span has a trace id,
    the four fields [traceId], [trace_id], [spanId], [span_id]; with it
    off, the fields and the extra fields; the span ends the same. *)
Theorem trace_id_fields_for_zap_only (h : Heap) (l : Logger) (ctx : Context)
    (lvl : Level) (msg : string) (fields : list Field) :
  IsRecording (SpanFromContext ctx) = true ->
  minLevel l <= lvl ->
  forallb payloadOK (fields ++ readSlice h (extraFields l)) = true ->
  let old := SpanFromContext ctx in
  exists span',
    logFields E h (set_withTraceID true l) ctx lvl msg fields
      = Ok (fields ++ readSlice h (extraFields l)
              ++ (if HasTraceID (spanContext old)
                  then traceIDFields old else []), span')
    /\ logFields E h (set_withTraceID false l) ctx lvl msg fields
       = Ok (fields ++ readSlice h (extraFields l), span')
    /\ map Key (traceIDFields old)
       = ["traceId"; "trace_id"; "spanId"; "span_id"]%string.
Proof.
  intros Hrec Hmin Hok old. subst old. unfold logFields.
  cbn [set_withTraceID extraFields minLevel withTraceID].
  rewrite !logFields_fields, Hrec.
  destruct (lvl <? minLevel l) eqn:Hc; [apply Z.ltb_lt in Hc; lia|].
  cbn [negb].
  destruct (appendFields_runs E (fields ++ readSlice h (extraFields l)) [] Hok)
    as [attrs Ha].
  rewrite Ha. cbn [mbind Result_bind].
  exists (log E l (SpanFromContext ctx) lvl msg attrs).
  assert (Hlog : forall b, log E (set_withTraceID b l) (SpanFromContext ctx) lvl msg attrs
                 = log E l (SpanFromContext ctx) lvl msg attrs) by reflexivity.
  rewrite !Hlog.
  destruct (log_frame E l (SpanFromContext ctx) lvl msg attrs) as [_ Hctx].
  unfold traceIDFields at 1. rewrite Hctx.
  split; [|split; reflexivity].
  destruct (HasTraceID (spanContext (SpanFromContext ctx)));
    rewrite <- ?app_assoc, ?app_nil_r; reflexivity.
Qed.

(** X13. A templated call that reaches the span records the template
    as it was written under [log.template] and the formatted message
    under [log.message]; the arguments give no attribute of their own. *)
Theorem logArgs_template_attribute (s : SugaredLogger) (ctx : Context)
    (lvl : Level) (template : string) (args : list any) :
  IsRecording (SpanFromContext ctx) = true ->
  minLevel (desugared s) <= lvl ->
  exists tail status,
    calls (logArgs E s ctx lvl template args)
      = calls (SpanFromContext ctx)
        ++ AddEventCall "log"
             (attribute.String "log.template" template
              :: attribute.String "log.severity" (levelString lvl)
              :: attribute.String "log.message" (Sprintf E template args)
              :: tail)
           :: status
    /\ (length tail <= 4)%nat.
Proof.
  intros Hrec Hmin. unfold logArgs. rewrite Hrec.
  destruct (lvl <? minLevel (desugared s)) eqn:Hc;
    [apply Z.ltb_lt in Hc; lia|].
  cbn [negb]. rewrite log_calls.
  destruct (logAttrs_shape E (desugared s) lvl (Sprintf E template args)
              [attribute.String logTemplateKey template]) as [tail Ht].
  pose proof (logAttrs_added (desugared s) lvl (Sprintf E template args)
                [attribute.String logTemplateKey template]) as [Hlen _].
  rewrite Ht in Hlen |- *. exists tail. eexists. split; [reflexivity|].
  rewrite length_app in Hlen. cbn [length] in Hlen. lia.
Qed.

Lemma pairAttrs_length (n : nat) : forall kvs : list any,
  (length kvs <= n)%nat ->
  (2 * length (pairAttrs E kvs) <= length kvs)%nat.
Proof.
  induction n as [|n IH]; intros kvs Hn.
  - destruct kvs; [cbn; lia|cbn in Hn; lia].
  - destruct kvs as [|k [|v rest]]; [cbn; lia|destruct k; cbn; lia|].
    cbn [length] in Hn.
    pose proof (IH rest ltac:(lia)).
    destruct k; cbn [pairAttrs length]; lia.
Qed.

Lemma pairAttrs_app_even (n : nat) : forall a b : list any,
  length a = (2 * n)%nat ->
  pairAttrs E (a ++ b) = pairAttrs E a ++ pairAttrs E b.
Proof.
  induction n as [|n IH]; intros a b Ha.
  - destruct a; [reflexivity|discriminate Ha].
  - destruct a as [|k [|v rest]]; try (cbn in Ha; lia).
    cbn [length] in Ha.
    pose proof (IH rest b ltac:(lia)) as Hrest.
    destruct k; cbn [app pairAttrs]; rewrite Hrest; reflexivity.
Qed.

(** X14. The key/value loop works pair by pair: on a list that starts
    with an even number of arguments it attaches what it attaches for
    that start followed by what it attaches for the rest, and it never
    attaches more attributes than there are pairs. *)
Theorem kvLoop_pairwise (a b : list any) (n : nat) :
  length a = (2 * n)%nat ->
  kvLoop E (length (a ++ b)) (a ++ b) 0 []
    = kvLoop E (length a) a 0 [] ++ kvLoop E (length b) b 0 []
  /\ (length (kvLoop E (length a) a 0 []) <= n)%nat.
Proof.
  intros Ha. rewrite !kvLoop_all. split.
  - apply (pairAttrs_app_even n), Ha.
  - pose proof (pairAttrs_length (length a) a ltac:(lia)). lia.
Qed.

Lemma appendFields_cons (attrs : list KeyValue) (f : Field)
    (rest : list Field) :
  appendFields E attrs (f :: rest)
    = if isNamespace f then appendFields E attrs rest
      else match appendField E attrs f with
           | Ok attrs' => appendFields E attrs' rest
           | Panic why => Panic why
           end.
Proof.
  unfold isNamespace. cbn [appendFields]. destruct (Type_ f); reflexivity.
Qed.

Lemma appendFields_from_empty (fields : list Field) : forall attrs,
  appendFields E attrs fields
    = match appendFields E [] fields with
      | Ok new => Ok (attrs ++ new)
      | Panic why => Panic why
      end.
Proof.
  induction fields as [|f rest IH]; intros attrs.
  - cbn. rewrite app_nil_r. reflexivity.
  - rewrite !appendFields_cons. destruct (isNamespace f); [apply IH|].
    pose proof (appendField_from_empty E attrs f) as Hf.
    destruct (appendField E [] f) as [new|]; [|rewrite Hf; reflexivity].
    destruct Hf as [Hf _]. rewrite Hf, (IH (attrs ++ new)), (IH new).
    destruct (appendFields E [] rest); [|reflexivity].
    rewrite app_assoc. reflexivity.
Qed.

Lemma appendFields_length (fields : list Field) : forall new,
  appendFields E [] fields = Ok new ->
  (length new <= 2 * length fields)%nat.
Proof.
  induction fields as [|f rest IH]; intros new H.
  - injection H as <-. cbn. lia.
  - rewrite appendFields_cons in H. cbn [length].
    destruct (isNamespace f); [specialize (IH new H); lia|].
    pose proof (appendField_from_empty E [] f) as Hf.
    destruct (appendField E [] f) as [one|]; [|discriminate H].
    destruct Hf as [_ Hlen].
    rewrite appendFields_from_empty in H.
    destruct (appendFields E [] rest) as [more|]; [|discriminate H].
    injection H as <-. specialize (IH more eq_refl).
    rewrite length_app. destruct (Type_ f); lia.
Qed.

(** X15. The event of a strict call that reaches the span carries the
    attributes of the call's fields, then those of the logger's extra
    fields, then severity and message and what [log] adds: at most two
    attributes per field and four after the message. *)
Theorem strict_event_attributes (h : Heap) (l : Logger) (ctx : Context)
    (lvl : Level) (msg : string) (fields : list Field) :
  IsRecording (SpanFromContext ctx) = true ->
  minLevel l <= lvl ->
  forallb payloadOK (fields ++ readSlice h (extraFields l)) = true ->
  exists own extra tail status fields' span',
    appendFields E [] fields = Ok own
    /\ appendFields E [] (readSlice h (extraFields l)) = Ok extra
    /\ logFields E h l ctx lvl msg fields = Ok (fields', span')
    /\ calls span' = calls (SpanFromContext ctx)
         ++ AddEventCall "log"
              (own ++ extra
                 ++ attribute.String "log.severity" (levelString lvl)
                    :: attribute.String "log.message" msg :: tail)
            :: status
    /\ (length own <= 2 * length fields)%nat
    /\ (length extra <= 2 * length (readSlice h (extraFields l)))%nat
    /\ (length tail <= 4)%nat.
Proof.
  intros Hrec Hmin Hok.
  rewrite forallb_app in Hok. apply andb_true_iff in Hok as [Hok1 Hok2].
  destruct (appendFields_runs E fields [] Hok1) as [own Hown].
  destruct (appendFields_runs E (readSlice h (extraFields l)) [] Hok2)
    as [extra Hextra].
  exists own, extra.
  destruct (logAttrs_shape E l lvl msg (own ++ extra)) as [tail Ht].
  pose proof (logAttrs_added l lvl msg (own ++ extra)) as [Hlen _].
  exists tail. eexists. eexists. eexists.
  split; [exact Hown|]. split; [exact Hextra|].
  unfold logFields. rewrite logFields_fields, Hrec.
  destruct (lvl <? minLevel l) eqn:Hc; [apply Z.ltb_lt in Hc; lia|].
  cbn [negb]. rewrite appendFields_app, Hown, appendFields_from_empty, Hextra.
  cbn [mbind Result_bind].
  split; [reflexivity|]. rewrite log_calls, Ht, <- app_assoc.
  split; [reflexivity|].
  split; [apply appendFields_length, Hown|].
  split; [apply appendFields_length, Hextra|].
  rewrite Ht in Hlen. rewrite !length_app in Hlen. cbn [length] in Hlen. lia.
Qed.

Lemma logKVs_returned (s : SugaredLogger) (ctx : Context) (lvl : Level)
    (msg : string) (kvs : list any) :
  IsRecording (SpanFromContext ctx) = true ->
  minLevel (desugared s) <= lvl ->
  withTraceID (desugared s) = true ->
  HasTraceID (spanContext (SpanFromContext ctx)) = true ->
  (logKVs E s ctx lvl msg kvs).1 = kvs ++ traceIDKVs (SpanFromContext ctx).
Proof.
  intros Hrec Hmin Hon Hid. unfold logKVs. rewrite Hrec, Hon.
  destruct (lvl <? minLevel (desugared s)) eqn:Hc;
    [apply Z.ltb_lt in Hc; lia|].
  cbn [negb fst].
  destruct (log_frame E (desugared s) (SpanFromContext ctx) lvl msg
              (kvLoop E (length kvs) kvs 0 [])) as [_ Hctx].
  unfold traceIDKVs. rewrite Hctx, Hid. reflexivity.
Qed.

(** X16. With the trace-id pairs switched on, the key/value list handed
    to zap pairs up as intended when the call's own list is made of whole
    pairs.  After a last key without a value the added elements are
    shifted by one: that key takes the string "traceId" as its value and
    the ids stand where keys are expected. *)
Theorem trace_id_pairs_after_orphan (s : SugaredLogger) (ctx : Context)
    (lvl : Level) (msg key : string) (pairs : list any) (n : nat) :
  IsRecording (SpanFromContext ctx) = true ->
  minLevel (desugared s) <= lvl ->
  withTraceID (desugared s) = true ->
  HasTraceID (spanContext (SpanFromContext ctx)) = true ->
  length pairs = (2 * n)%nat ->
  let tid := TraceID (spanContext (SpanFromContext ctx)) in
  let sid := SpanID (spanContext (SpanFromContext ctx)) in
  pairAttrs E (logKVs E s ctx lvl msg pairs).1
    = pairAttrs E pairs
      ++ [otelutilAttribute E "traceId" (String_ tid);
          otelutilAttribute E "trace_id" (String_ (convertTraceID tid));
          otelutilAttribute E "spanId" (String_ sid);
          otelutilAttribute E "span_id" (String_ (convertTraceID sid))]
  /\ pairAttrs E (logKVs E s ctx lvl msg (pairs ++ [String_ key])).1
     = pairAttrs E pairs
       ++ [otelutilAttribute E key (String_ "traceId");
           otelutilAttribute E tid (String_ "trace_id");
           otelutilAttribute E (convertTraceID tid) (String_ "spanId");
           otelutilAttribute E sid (String_ "span_id")].
Proof.
  intros Hrec Hmin Hon Hid Hlen. cbn zeta.
  rewrite !logKVs_returned by assumption.
  rewrite <- app_assoc, !(pairAttrs_app_even n) by exact Hlen.
  split; reflexivity.
Qed.

End LoggingMore.

Lemma event_without_status_witness :
  exists fields' span' attrs,
    logFields exampleE [] infoLogger (Some recordingSpan) WarnLevel
      "disk low" [zap.Int64 "pct" 97] = Ok (fields', span')
    /\ calls span' = calls recordingSpan ++ [AddEventCall "log" attrs].
Proof.
  apply (proj1 (event_without_status exampleE [] infoLogger (Sugar infoLogger)
                  (Some recordingSpan) WarnLevel "disk low" ""
                  [zap.Int64 "pct" 97] [] [] eq_refl)).
  - vm_compute. split; [discriminate|reflexivity].
  - reflexivity.
Defined.

Lemma trace_id_fields_for_zap_only_witness :
  exists span',
    logFields exampleE [] (set_withTraceID true infoLogger)
      (Some recordingSpan) InfoLevel "started" []
    = Ok ([zap.String "traceId" "0123456789abcdef0123456789abcdef";
           zap.String "trace_id" "81985529216486895";
           zap.String "spanId" "00f067aa0ba902b7";
           zap.String "span_id" "67667974448284343"], span').
Proof.
  destruct (trace_id_fields_for_zap_only exampleE [] infoLogger
              (Some recordingSpan) InfoLevel "started" [] eq_refl)
    as [span' [H _]].
  - vm_compute. discriminate.
  - reflexivity.
  - exists span'. exact H.
Defined.

Lemma logArgs_template_attribute_witness :
  exists tail status,
    calls (logArgs exampleE (Sugar infoLogger) (Some recordingSpan) ErrorLevel
             "user %v not found" [Int_ 7])
    = calls recordingSpan
      ++ AddEventCall "log"
           (attribute.String "log.template" "user %v not found"
            :: attribute.String "log.severity" "ERROR"
            :: attribute.String "log.message" "user 7 not found" :: tail)
         :: status
    /\ (length tail <= 4)%nat.
Proof.
  apply (logArgs_template_attribute exampleE (Sugar infoLogger)
           (Some recordingSpan) ErrorLevel "user %v not found" [Int_ 7] eq_refl).
  vm_compute. discriminate.
Defined.

Lemma kvLoop_pairwise_witness :
  kvLoop exampleE 5 [String_ "id"; Int_ 42; Int_ 1; Int_ 2; String_ "oops"] 0 []
  = [attribute.Int64 "id" 42].
Proof.
  exact (proj1 (kvLoop_pairwise exampleE [String_ "id"; Int_ 42]
                  [Int_ 1; Int_ 2; String_ "oops"] 1 eq_refl)).
Defined.

Lemma strict_event_attributes_witness :
  exists own extra tail status fields' span',
    appendFields exampleE [] [zap.Int64 "pct" 97] = Ok own
    /\ appendFields exampleE [] (readSlice [] (extraFields infoLogger)) = Ok extra
    /\ logFields exampleE [] infoLogger (Some recordingSpan) WarnLevel
         "disk low" [zap.Int64 "pct" 97] = Ok (fields', span')
    /\ calls span' = calls recordingSpan
         ++ AddEventCall "log"
              (own ++ extra
                 ++ attribute.String "log.severity" (levelString WarnLevel)
                    :: attribute.String "log.message" "disk low" :: tail)
            :: status
    /\ (length own <= 2 * length [zap.Int64 "pct" 97])%nat
    /\ (length extra <= 2 * length (readSlice [] (extraFields infoLogger)))%nat
    /\ (length tail <= 4)%nat.
Proof.
  apply (strict_event_attributes exampleE [] infoLogger (Some recordingSpan)
           WarnLevel "disk low" [zap.Int64 "pct" 97] eq_refl).
  - vm_compute. discriminate.
  - reflexivity.
Defined.

Lemma trace_id_pairs_after_orphan_witness :
  pairAttrs exampleE
    (logKVs exampleE (Sugar (set_withTraceID true infoLogger))
       (Some recordingSpan) InfoLevel "user created"
       [String_ "id"; Int_ 42; String_ "oops"]).1
  = [attribute.Int64 "id" 42;
     attribute.String "oops" "traceId";
     attribute.String "0123456789abcdef0123456789abcdef" "trace_id";
     attribute.String "81985529216486895" "spanId";
     attribute.String "00f067aa0ba902b7" "span_id"].
Proof.
  exact (proj2 (trace_id_pairs_after_orphan exampleE
                  (Sugar (set_withTraceID true infoLogger))
                  (Some recordingSpan) InfoLevel "user created" "oops"
                  [String_ "id"; Int_ 42] 1 eq_refl
                  ltac:(vm_compute; discriminate) eq_refl eq_refl eq_refl)).
Defined.

Lemma namespace_fields_not_on_span_witness :
  exists tail,
    [mkField "http" NamespaceType 0 "" Nil; zap.Int64 "status" 200]
    = [mkField "http" NamespaceType 0 "" Nil; zap.Int64 "status" 200] ++ tail.
Proof.
  refine (proj2 (namespace_fields_not_on_span exampleE [] infoLogger
                   (Some recordingSpan) DebugLevel "served"
                   [mkField "http" NamespaceType 0 "" Nil;
                    zap.Int64 "status" 200]) _ recordingSpan eq_refl).
Defined.

Lemma logAttrs_count_witness :
  logAttrs exampleE quietLogger ErrorLevel "db down" []
  = [attribute.String "log.severity" "ERROR";
     attribute.String "log.message" "db down"].
Proof.
  exact (proj1 (proj2 (logAttrs_count exampleE quietLogger ErrorLevel
                         "db down" [])) eq_refl eq_refl).
Defined.

(** ** Appending to the extra fields *)

Section DerivedMore.

Variable E : Externals.

Lemma take_inserts_app (n : nat) (xs arr : list Field) :
  (n + length xs <= length arr)%nat ->
  take (n + length xs) (list_inserts n xs arr) = take n arr ++ xs.
Proof.
  intros Hlen.
  rewrite <- (take_drop n arr) at 1.
  assert (Hn : length (take n arr) = n) by (rewrite length_take; lia).
  replace n with (length (take n arr) + 0)%nat at 2 by lia.
  rewrite list_inserts_app_r.
  rewrite <- (take_drop (length xs) (drop n arr)).
  rewrite list_inserts_0_r by (rewrite length_take, length_drop; lia).
  rewrite app_assoc. apply take_app_length'.
  rewrite length_app, Hn. reflexivity.
Qed.

(** On a header that fits its array, [append] yields a header that
    shows the old elements followed by the new ones, and fits. *)
Lemma goAppend_good (h : Heap) (s : Slice) (xs : list Field) :
  goodSlice h s = true ->
  readSlice (goAppend E h s xs).1 (goAppend E h s xs).2 = readSlice h s ++ xs
  /\ goodSlice (goAppend E h s xs).1 (goAppend E h s xs).2 = true.
Proof.
  unfold goodSlice, goAppend, readSlice, Heap in *. intros Hgood.
  destruct (array s) as [a|] eqn:Ha.
  - destruct (h !! a) as [arr|] eqn:Harr; [|discriminate Hgood].
    apply andb_true_iff in Hgood as [Hcap Hlen].
    apply Nat.leb_le in Hcap, Hlen.
    destruct (slen s + length xs <=? scap s)%nat eqn:Hfit; cbn [fst snd array slen scap].
    + apply Nat.leb_le in Hfit.
      rewrite list_lookup_alter_eq, Harr. cbn.
      rewrite length_inserts. split.
      * apply take_inserts_app. lia.
      * apply andb_true_iff; split; apply Nat.leb_le; lia.
    + rewrite lookup_app_r by lia. rewrite Nat.sub_diag. cbn.
      rewrite !length_app, length_replicate, length_take. split.
      * rewrite app_assoc. apply take_app_length'.
        rewrite length_app, length_take. lia.
      * apply andb_true_iff; split; apply Nat.leb_le; lia.
  - apply andb_true_iff in Hgood as [Hl Hc].
    apply Nat.eqb_eq in Hl, Hc. rewrite Hl, Hc. cbn [Nat.add].
    destruct (length xs <=? 0)%nat eqn:Hfit; cbn [fst snd array slen scap].
    + apply Nat.leb_le in Hfit. destruct xs; [|cbn in Hfit; lia].
      rewrite Ha, Hl, Hc. split; reflexivity.
    + rewrite lookup_app_r by lia. rewrite Nat.sub_diag. cbn.
      rewrite !length_app, length_replicate. split.
      * apply take_app_length'. reflexivity.
      * apply andb_true_iff; split; apply Nat.leb_le; lia.
Qed.

(** [append] leaves every backing array in the store, with its length. *)
Lemma goAppend_keeps_good (h : Heap) (s s' : Slice) (xs : list Field) :
  goodSlice h s' = true -> goodSlice (goAppend E h s xs).1 s' = true.
Proof.
  unfold goodSlice, goAppend, Heap in *. intros Hgood.
  destruct (array s') as [a'|]; [|exact Hgood].
  destruct (h !! a') as [arr|] eqn:Harr; [|discriminate Hgood].
  pose proof (lookup_lt_Some _ _ _ Harr) as Hlt.
  destruct (slen s + length xs <=? scap s)%nat; cbn [fst].
  - destruct (array s) as [a|]; cbn [fst]; [|rewrite Harr; exact Hgood].
    rewrite list_lookup_alter.
    destruct (decide (a = a')) as [->|Hne]; rewrite Harr; cbn.
    + rewrite length_inserts. exact Hgood.
    + exact Hgood.
  - rewrite lookup_app_l by exact Hlt. rewrite Harr. exact Hgood.
Qed.

Lemma goodSlice_wf (h : Heap) (s : Slice) : goodSlice h s = true -> wfSlice h s.
Proof.
  unfold goodSlice, wfSlice, Heap in *. destruct (array s) as [a|]; [|auto].
  destruct (h !! a) eqn:Ha; [|discriminate]. intros _.
  exact (lookup_lt_Some _ _ _ Ha).
Qed.

(** Which other headers an append leaves as they are. *)
Lemma goAppend_other (h : Heap) (s s' : Slice) (xs : list Field) :
  wfSlice h s' ->
  array s' <> array s \/ (slen s' <= slen s)%nat
    \/ (scap s < slen s + length xs)%nat ->
  readSlice (goAppend E h s xs).1 s' = readSlice h s'.
Proof.
  unfold wfSlice, goAppend, readSlice, Heap in *. intros Hwf Hcase.
  destruct (array s') as [a'|] eqn:Ha'; [|reflexivity].
  destruct (slen s + length xs <=? scap s)%nat eqn:Hfit; cbn [fst].
  - apply Nat.leb_le in Hfit.
    destruct (array s) as [a|] eqn:Ha; cbn [fst]; [|reflexivity].
    rewrite list_lookup_alter.
    destruct (decide (a = a')) as [->|Hne]; [|reflexivity].
    destruct Hcase as [Hc|[Hc|Hc]]; [contradiction Hc; reflexivity| |lia].
    destruct (h !! a') as [arr|]; cbn; [|reflexivity].
    apply list_eq. intros j.
    destruct (decide (j < slen s')%nat) as [Hj|Hj].
    + rewrite !lookup_take_lt by lia. apply list_lookup_inserts_lt. lia.
    + rewrite !lookup_take_ge by lia. reflexivity.
  - rewrite lookup_app_l by exact Hwf. reflexivity.
Qed.

(** X17. Appending through one slice header can change what another
    header shows only if the other shares the backing array, is longer
    than the appended one, and the new elements fit the capacity.  A
    header on another array, one that is no longer, and every header
    when the append has to reallocate, show what they showed. *)
Theorem goAppend_frame (h : Heap) (s s' : Slice) (xs : list Field) :
  wfSlice h s' ->
  array s' <> array s \/ (slen s' <= slen s)%nat
    \/ (scap s < slen s + length xs)%nat ->
  readSlice (goAppend E h s xs).1 s' = readSlice h s'.
Proof.
  unfold wfSlice, goAppend, readSlice, Heap in *. intros Hwf Hcase.
  destruct (array s') as [a'|] eqn:Ha'; [|reflexivity].
  destruct (slen s + length xs <=? scap s)%nat eqn:Hfit; cbn [fst].
  - apply Nat.leb_le in Hfit.
    destruct (array s) as [a|] eqn:Ha; cbn [fst]; [|reflexivity].
    rewrite list_lookup_alter.
    destruct (decide (a = a')) as [->|Hne]; [|reflexivity].
    destruct Hcase as [Hc|[Hc|Hc]]; [contradiction Hc; reflexivity| |lia].
    destruct (h !! a') as [arr|]; cbn; [|reflexivity].
    apply list_eq. intros j.
    destruct (decide (j < slen s')%nat) as [Hj|Hj].
    + rewrite !lookup_take_lt by lia. apply list_lookup_inserts_lt. lia.
    + rewrite !lookup_take_ge by lia. reflexivity.
  - rewrite lookup_app_l by exact Hwf. reflexivity.
Qed.

(** Package options build on the extra fields and leave the rest of
    the store, and the zap loggers, alone. *)
Lemma applyOptions_cons (o : Option) (os : list Option) (h : Heap)
    (l : Logger) :
  applyOptions (o :: os) h l = applyOptions os (o h l).1 (o h l).2.
Proof.
  unfold applyOptions. cbn [fold_left fst snd].
  destruct (o h l). reflexivity.
Qed.

Lemma applyOptions_package (os : list PackageOption) :
  forall (h : Heap) (l : Logger) (s0 : Slice),
  goodSlice h (extraFields l) = true ->
  goodSlice h s0 = true ->
  (array s0 = array (extraFields l) -> (slen s0 <= slen (extraFields l))%nat) ->
  let r := applyOptions (map (toOption E) os) h l in
  readSlice r.1 (extraFields r.2)
    = readSlice h (extraFields l) ++ concat (map extraOf os)
  /\ goodSlice r.1 (extraFields r.2) = true
  /\ readSlice r.1 s0 = readSlice h s0
  /\ zapLogger r.2 = zapLogger l /\ skipCaller r.2 = skipCaller l.
Proof.
  induction os as [|o os IH]; intros h l s0 Hgood Hgood0 Halias; cbn zeta.
  - cbn. rewrite app_nil_r. auto.
  - cbn [map]. rewrite applyOptions_cons.
    destruct o as [lvl|lvl|on|depth|on|fs|on];
      cbn [toOption extraOf concat app];
      try (match goal with
           | |- context [applyOptions _ (?o h l).1 (?o h l).2] =>
               let H := fresh in
               pose proof (IH (o h l).1 (o h l).2 s0) as H;
               cbv zeta in H;
               cbn [WithMinLevel WithErrorStatusLevel WithCaller WithCallerDepth
                    WithStackTrace WithTraceIDField fst snd extraFields
                    zapLogger skipCaller set_minLevel set_errorStatusLevel
                    set_caller set_callerDepth set_stackTrace set_withTraceID]
                 in H |- *;
               apply H; assumption
           end).
    unfold WithExtraFields. cbn [fst snd].
    destruct (goAppend_good h (extraFields l) fs Hgood) as [Hread Hg].
    pose proof (goAppend_keeps_good h (extraFields l) s0 fs Hgood0) as Hg0.
    assert (Hframe : readSlice (goAppend E h (extraFields l) fs).1 s0
                     = readSlice h s0).
    { apply goAppend_other; [apply goodSlice_wf, Hgood0|].
      destruct (decide (array s0 = array (extraFields l))) as [Heq|Hne];
        [right; left; auto|left; exact Hne]. }
    destruct (IH (goAppend E h (extraFields l) fs).1
                 (set_extraFields (goAppend E h (extraFields l) fs).2 l) s0)
      as (H1 & H2 & H3 & H4 & H5); cbn [extraFields set_extraFields];
      try assumption.
    + unfold goAppend.
      destruct (slen (extraFields l) + length fs <=? scap (extraFields l))%nat.
      * destruct (array (extraFields l)) as [a|] eqn:Ha; cbn [snd array slen];
          intros Heq.
        -- specialize (Halias Heq). lia.
        -- rewrite Ha in Heq. specialize (Halias Heq). lia.
      * cbn [snd array slen]. intros Heq. apply goodSlice_wf in Hgood0.
        unfold wfSlice in Hgood0. rewrite Heq in Hgood0.
        unfold Heap in *. lia.
    + cbn [extraFields set_extraFields] in H1.
      rewrite H1, Hread, H3, Hframe, <- app_assoc. auto.
Qed.

(** X18. A logger derived by [Clone] with options of this package shows
    its parent's extra fields followed by the fields of its
    [WithExtraFields] options, in order; the parent shows what it showed
    before, and the zap loggers are the parent's. *)
Theorem Clone_extra_fields (h : Heap) (l : Logger) (os : list PackageOption) :
  goodSlice h (extraFields l) = true ->
  let r := Clone h l (map (toOption E) os) in
  readSlice r.1 (extraFields r.2)
    = readSlice h (extraFields l) ++ concat (map extraOf os)
  /\ readSlice r.1 (extraFields l) = readSlice h (extraFields l)
  /\ goodSlice r.1 (extraFields r.2) = true
  /\ zapLogger r.2 = zapLogger l /\ skipCaller r.2 = skipCaller l.
Proof.
  intros Hgood r. subst r. unfold Clone.
  destruct (applyOptions_package os h l (extraFields l) Hgood Hgood)
    as (H1 & H2 & H3 & H4 & H5); [lia|]. auto.
Qed.

(** X19. A logger built by [NewOtel] with options of this package has
    as extra fields those of its [WithExtraFields] options, in order,
    whatever the store held, and no array that was in the store is
    changed. *)
Theorem NewOtel_extra_fields (h : Heap) (logger : zap.Logger)
    (os : list PackageOption) :
  let r := NewOtel h logger (map (toOption E) os) in
  readSlice r.1 (extraFields r.2) = concat (map extraOf os)
  /\ zapLogger r.2 = logger
  /\ forall s0, goodSlice h s0 = true -> readSlice r.1 s0 = readSlice h s0.
Proof.
  cbn zeta. unfold NewOtel.
  set (l0 := mkLogger _ _ _ _ _ _ _ _ _).
  split; [|split].
  - destruct (applyOptions_package os h l0 nilSlice eq_refl eq_refl)
      as (H1 & _); [cbn; lia|]. exact H1.
  - destruct (applyOptions_package os h l0 nilSlice eq_refl eq_refl)
      as (_ & _ & _ & H4 & _); [cbn; lia|]. exact H4.
  - intros s0 Hs0.
    destruct (applyOptions_package os h l0 s0 eq_refl Hs0) as (_ & _ & H3 & _);
      [|exact H3].
    cbn. intros Heq. unfold goodSlice in Hs0. rewrite Heq in Hs0.
    apply andb_true_iff in Hs0 as [Hs0 _]. apply Nat.eqb_eq in Hs0. lia.
Qed.

(** X20. When the parent's extra fields fill their capacity, two
    loggers derived from it with extra fields of their own do not share
    a slot: each appends into a fresh array, and deriving the second
    leaves the first showing the parent's fields followed by its own. *)
Theorem full_parent_siblings_independent (h : Heap) (p : Logger)
    (fs1 fs2 : list Field) :
  goodSlice h (extraFields p) = true ->
  slen (extraFields p) = scap (extraFields p) ->
  fs1 <> [] ->
  let a := Clone h p [WithExtraFields E fs1] in
  let b := Clone a.1 p [WithExtraFields E fs2] in
  readSlice b.1 (extraFields a.2) = readSlice h (extraFields p) ++ fs1
  /\ readSlice b.1 (extraFields b.2) = readSlice h (extraFields p) ++ fs2
  /\ readSlice b.1 (extraFields p) = readSlice h (extraFields p).
Proof.
  intros Hgood Hfull Hne. cbn zeta.
  unfold Clone, applyOptions, WithExtraFields. cbn [fold_left fst snd].
  cbn [extraFields set_extraFields].
  set (s := extraFields p) in *.
  destruct (goAppend_good h s fs1 Hgood) as [Hra Hga].
  pose proof (goAppend_keeps_good h s s fs1 Hgood) as Hgs.
  pose proof (goAppend_keeps_original E h s fs1 (goodSlice_wf h s Hgood)) as Hks.
  set (h1 := (goAppend E h s fs1).1) in *.
  set (sa := (goAppend E h s fs1).2) in *.
  destruct (goAppend_good h1 s fs2 Hgs) as [Hrb Hgb].
  assert (Hnew : array sa <> array s).
  { subst sa. unfold goAppend.
    destruct (slen s + length fs1 <=? scap s)%nat eqn:Hfit.
    - apply Nat.leb_le in Hfit. destruct fs1; [contradiction|cbn in Hfit; lia].
    - cbn [snd array]. intros Heq. apply goodSlice_wf in Hgood.
      unfold wfSlice in Hgood. rewrite <- Heq in Hgood. unfold Heap in *. lia. }
  split; [|split].
  - rewrite goAppend_other; [exact Hra|apply goodSlice_wf, Hga|left; exact Hnew].
  - rewrite Hrb, Hks. reflexivity.
  - rewrite (goAppend_keeps_original E h1 s fs2 (goodSlice_wf h1 s Hgs)).
    exact Hks.
Qed.

Lemma extractFields_count (opts : list zap.Option) :
  forall (coreLive : bool) (acc : list Field),
  extractFields coreLive opts acc
    = match fieldsOptions opts with
      | [] => Ok acc
      | [fs] =>
          if coreLive then Ok (acc ++ fs)
          else Panic "invalid memory address or nil pointer dereference"
      | _ => Panic "invalid memory address or nil pointer dereference"
      end.
Proof.
  induction opts as [|o opts IH]; intros coreLive acc; [reflexivity|].
  destruct o as [fs|skip|name]; cbn [extractFields fieldsOptions];
    try apply IH.
  destruct coreLive.
  - rewrite IH. destruct (fieldsOptions opts) as [|fs' [|]]; reflexivity.
  - destruct (fieldsOptions opts); reflexivity.
Qed.

(** X21. For options that are [zap.Fields] or leave the core alone
    ([AddCallerSkip] and the like; not [WrapCore], [Hooks] or
    [IncreaseLevel], which use the core): [WithOptions] goes through
    when at most one of them is [zap.Fields]; the new logger has the
    parent's settings, both zap loggers with the options applied, and
    the parent's extra fields followed by the fields of that option; the
    parent shows what it showed.  With two or more [zap.Fields] options
    it panics, for the field extractor has handed zap a nil core after
    the first. *)
Theorem WithOptions_fields (h : Heap) (l : Logger) (opts : list zap.Option) :
  goodSlice h (extraFields l) = true ->
  match fieldsOptions opts with
  | [] | [_] =>
      exists r,
        WithOptions E h l opts = Ok r
        /\ readSlice r.1 (extraFields r.2)
           = readSlice h (extraFields l) ++ concat (fieldsOptions opts)
        /\ readSlice r.1 (extraFields l) = readSlice h (extraFields l)
        /\ zapLogger r.2 = zap.WithOptions (zapLogger l) opts
        /\ skipCaller r.2 = zap.WithOptions (skipCaller l) opts
        /\ (minLevel r.2, errorStatusLevel r.2, withTraceID r.2)
           = (minLevel l, errorStatusLevel l, withTraceID l)
        /\ (caller r.2, stackTrace r.2, callerDepth r.2)
           = (caller l, stackTrace l, callerDepth l)
  | _ => exists why, WithOptions E h l opts = Panic why
  end.
Proof.
  intros Hgood. unfold WithOptions. rewrite extractFields_count.
  destruct (fieldsOptions opts) as [|fs [|fs' rest]];
    cbn [mbind Result_bind app]; [| |eexists; reflexivity];
    (eexists; split; [reflexivity|]);
    cbn [fst snd extraFields set_extraFields set_zap zapLogger skipCaller
         minLevel errorStatusLevel withTraceID caller stackTrace callerDepth];
    (split; [rewrite (proj1 (goAppend_good _ _ _ Hgood)); cbn [concat];
             rewrite ?app_nil_r; reflexivity|]);
    (split; [apply goAppend_keeps_original, goodSlice_wf, Hgood|]);
    repeat split.
Qed.

End DerivedMore.

Lemma goAppend_frame_witness :
  readSlice (goAppend exampleE roomyParent.1 (extraFields roomyParent.2) [fx]).1
    (extraFields roomyParent.2)
  = [f1; f2; f3].
Proof.
  rewrite (goAppend_frame exampleE roomyParent.1 (extraFields roomyParent.2)
             (extraFields roomyParent.2) [fx]).
  - reflexivity.
  - vm_compute. lia.
  - right. left. lia.
Defined.

Lemma Clone_extra_fields_witness :
  let r := Clone roomyParent.1 roomyParent.2
             [WithMinLevel InfoLevel; WithExtraFields exampleE [fx; fy]] in
  readSlice r.1 (extraFields r.2) = [f1; f2; f3; fx; fy].
Proof.
  exact (proj1 (Clone_extra_fields exampleE roomyParent.1 roomyParent.2
                  [OptMinLevel InfoLevel; OptExtraFields [fx; fy]] eq_refl)).
Defined.

Lemma NewOtel_extra_fields_witness :
  readSlice (NewOtel roomyParent.1 zap.NewNop [WithExtraFields exampleE [fx]]).1
    (extraFields roomyParent.2)
  = [f1; f2; f3].
Proof.
  exact (proj2 (proj2 (NewOtel_extra_fields exampleE roomyParent.1 zap.NewNop
                         [OptExtraFields [fx]]))
           (extraFields roomyParent.2) eq_refl).
Defined.

Lemma full_parent_siblings_independent_witness :
  let a := Clone fullParent.1 fullParent.2 [WithExtraFields exampleE [fx]] in
  let b := Clone a.1 fullParent.2 [WithExtraFields exampleE [fy]] in
  readSlice b.1 (extraFields a.2) = [f1; f2; fx].
Proof.
  apply (full_parent_siblings_independent exampleE fullParent.1 fullParent.2
           [fx] [fy]).
  - reflexivity.
  - reflexivity.
  - discriminate.
Defined.

Lemma WithOptions_fields_witness :
  (exists r,
     WithOptions exampleE roomyParent.1 roomyParent.2
       [zap.AddCallerSkip 1; zap.Fields [fx]] = Ok r
     /\ readSlice r.1 (extraFields r.2) = [f1; f2; f3; fx])
  /\ exists why,
       WithOptions exampleE roomyParent.1 roomyParent.2
         [zap.Fields [fx]; zap.Fields [fy]] = Panic why.
Proof.
  split.
  - destruct (WithOptions_fields exampleE roomyParent.1 roomyParent.2
                [zap.AddCallerSkip 1; zap.Fields [fx]] eq_refl)
      as [r [H1 [H2 _]]].
    exists r. split; [exact H1|exact H2].
  - exact (WithOptions_fields exampleE roomyParent.1 roomyParent.2
             [zap.Fields [fx]; zap.Fields [fy]] eq_refl).
Defined.

(** ** Severity, caller lookup, bound loggers and the global pair *)

Lemma severityTells_all :
  forallb (fun a => forallb (severityTells a) int8Levels) int8Levels = true.
Proof. vm_compute. reflexivity. Qed.

Lemma in_int8Levels (a : Level) : -128 <= a <= 127 -> In a int8Levels.
Proof.
  intros H. unfold int8Levels.
  apply in_map_iff. exists (Z.to_nat (a + 128)).
  split; [lia|apply in_seq; lia].
Qed.

(** X22. Over the levels an int8 holds, the severity string tells the
    level: two levels with the same severity are the same level, or are
    DPanic and Panic. *)
Theorem levelString_tells_level (a b : Level) :
  -128 <= a <= 127 -> -128 <= b <= 127 ->
  levelString a = levelString b ->
  a = b \/ (a = DPanicLevel /\ b = PanicLevel)
  \/ (a = PanicLevel /\ b = DPanicLevel).
Proof.
  intros Ha Hb Heq.
  pose proof severityTells_all as Hall.
  rewrite forallb_forall in Hall.
  specialize (Hall a (in_int8Levels a Ha)).
  rewrite forallb_forall in Hall.
  specialize (Hall b (in_int8Levels b Hb)).
  unfold severityTells in Hall. rewrite Heq, String.eqb_refl in Hall.
  cbn [negb orb] in Hall.
  apply orb_true_iff in Hall as [Hall|Hall];
    [apply orb_true_iff in Hall as [Hall|Hall]|].
  - left. apply Z.eqb_eq, Hall.
  - apply andb_true_iff in Hall as [H1 H2].
    right; left. split; apply Z.eqb_eq; assumption.
  - apply andb_true_iff in Hall as [H1 H2].
    right; right. split; apply Z.eqb_eq; assumption.
Qed.

Lemma levelString_tells_level_witness :
  WarnLevel = WarnLevel \/ (WarnLevel = DPanicLevel /\ WarnLevel = PanicLevel)
  \/ (WarnLevel = PanicLevel /\ WarnLevel = DPanicLevel).
Proof.
  apply (levelString_tells_level WarnLevel WarnLevel).
  - vm_compute. split; discriminate.
  - vm_compute. split; discriminate.
  - reflexivity.
Defined.

Section BoundMore.

Variable E : Externals.
Variable sweetenFields : list any -> list Field.

(** X23. When the caller lookup finds no frame, or a frame without a
    program counter, the event carries what it carries with the caller
    switched off: no function, file or line attribute, and no failure. *)
Theorem unresolved_caller_omitted (l : Logger) (lvl : Level) (msg : string)
    (attrs : list KeyValue) :
  let pcs := runtimeCallers E (4 + callerDepth l + 1) in
  pcs = [] \/ PC (callersFramesNext E (take 1 pcs)) = 0 ->
  logAttrs E l lvl msg attrs = logAttrs E (set_caller false l) lvl msg attrs.
Proof.
  cbn zeta. intros H. unfold logAttrs, runtimeCaller.
  cbn [caller stackTrace callerDepth set_caller].
  destruct (caller l); [|reflexivity].
  destruct H as [H|H].
  - rewrite H. reflexivity.
  - destruct (Z.of_nat (length (take 1 (runtimeCallers E (4 + callerDepth l + 1))))
              <? 1); [reflexivity|].
    rewrite H. reflexivity.
Qed.

(** X24. Arguments added with [SugaredLogger.With] reach the records
    written by the [...Context] methods only.  The methods of the logger
    bound with [Ctx] write through the [skipCaller] logger, which [With]
    leaves as it was, so they behave after [With] as before it; and in
    neither family do the arguments reach the span. *)
Theorem With_reaches_context_methods_only (s : SugaredLogger) (ctx : Context)
    (lvl : Level) (msg template : string) (kvs args withArgs : list any) :
  let s' := SugaredLogger_With sweetenFields s withArgs in
  boundKV E lvl (SugaredLogger_Ctx s' ctx) msg kvs
    = boundKV E lvl (SugaredLogger_Ctx s ctx) msg kvs
  /\ boundTemplate E lvl (SugaredLogger_Ctx s' ctx) template args
     = boundTemplate E lvl (SugaredLogger_Ctx s ctx) template args
  /\ kvVia E lvl s' ctx msg kvs
     = ((kvVia E lvl s ctx msg kvs).1,
        (zap.mkSugared (zapWith (zap.base (zapSugared s)) (sweetenFields withArgs)),
         (kvVia E lvl s ctx msg kvs).2.2))
  /\ (sweetenFields withArgs <> [] ->
      (kvVia E lvl s' ctx msg kvs).2.1 <> (kvVia E lvl s ctx msg kvs).2.1)
  /\ Desugar s' = Desugar s.
Proof.
  cbn zeta. repeat split.
  intros Hne Heq. destruct s as [[[c ap]] sk d].
  cbn in Heq. unfold zapSugaredWith, zapWith in Heq. cbn in Heq.
  destruct (sweetenFields withArgs) as [|f fs]; [contradiction|].
  injection Heq as Heq.
  apply (f_equal (@length zap.Option)) in Heq.
  rewrite length_app in Heq. cbn in Heq. lia.
Qed.

(** Binding a context and desugaring go back and forth: the
    sugared form of a bound logger desugars to that bound logger, a
    method of the bound logger does what the [...Context] method of the
    logger does with that context, through the same zap logger, and
    [Clone] on a bound logger keeps the context. *)
Lemma bound_logger_agrees (h : Heap) (l : Logger) (ctx : Context)
    (lvl : Level) (msg : string) (fields : list Field) (opts : list Option) :
  SugaredLoggerWithCtx_Desugar (LoggerWithCtx_Sugar (Logger_Ctx l ctx))
    = Logger_Ctx l ctx
  /\ boundStrict E lvl h (Logger_Ctx l ctx) msg fields
     = strictVia E lvl h l ctx msg fields
  /\ match strictVia E lvl h l ctx msg fields,
           strictContext E lvl h l ctx msg fields with
     | Ok (span1, (via, entry1)), Ok (span2, entry2) =>
         span1 = span2 /\ entry1 = entry2 /\ via = skipCaller l
     | Panic why1, Panic why2 => why1 = why2
     | _, _ => False
     end
  /\ LoggerWithCtx_Clone h (Logger_Ctx l ctx) opts
     = ((Clone h l opts).1, Logger_Ctx (Clone h l opts).2 ctx).
Proof.
  repeat split.
  unfold strictVia, strictContext.
  destruct (logFields E h l ctx lvl msg fields) as [[fs span]|]; cbn; auto.
Qed.

End BoundMore.

Lemma unresolved_caller_omitted_witness :
  logAttrs shallowE infoLogger WarnLevel "disk low" []
  = [attribute.String "log.severity" "WARN";
     attribute.String "log.message" "disk low"].
Proof.
  rewrite (unresolved_caller_omitted shallowE infoLogger WarnLevel "disk low" []).
  - reflexivity.
  - left. reflexivity.
Defined.

Lemma With_reaches_context_methods_only_witness :
  (kvVia exampleE InfoLevel
     (SugaredLogger_With (fun _ => [f1]) (Sugar infoLogger) [String_ "service"])
     None "m" []).2.1
  <> (kvVia exampleE InfoLevel (Sugar infoLogger) None "m" []).2.1.
Proof.
  apply (With_reaches_context_methods_only exampleE (fun _ => [f1])
           (Sugar infoLogger) None InfoLevel "m" "" [] [] [String_ "service"]).
  discriminate.
Defined.

(** X25. Restore closures put back what they captured.  Undoing two
    replacements last-first brings back the original global logger;
    undoing them first-first leaves the first replacement installed.
    After every replacement and every restore the sugared global is the
    sugar of the global logger. *)
Theorem restore_order (g : Globals) (a b : Logger) :
  let r1 := ReplaceGlobals a g in
  let r2 := ReplaceGlobals b r1.1 in
  L (r1.2 (r2.2 r2.1)) = L g
  /\ L (r2.2 (r1.2 r2.1)) = a
  /\ S' r2.1 = Sugar (L r2.1)
  /\ forall g', S' (r1.2 g') = Sugar (L (r1.2 g'))
                /\ S' (r2.2 g') = Sugar (L (r2.2 g')).
Proof. cbn. repeat split. Qed.
